(** * ROHC sniffer (app/sniffer/sniffer.c): a shallow embedding

    The sniffer captures frames, pushes each through a
    compress / decompress round trip of the ROHC library and compares the
    result with the original.  This development embeds the parts of
    [sniffer.c] that make decisions of their own:

    - [rtp_detect_cb], the RTP detection callback;
    - [compare_packets], the byte-wise comparison with its hex dump;
    - [print_rohc_traces] and the dump of the last traces in [sniff];
    - [compress_decompress], the per-packet pipeline;
    - the body of the capture loop of [sniff].

    Integers are [Z]; buffers are [list byte]; text written with [printf]
    and [fprintf] is a [string].  The ROHC library and libpcap are outside
    the file: calls into them are events of a small free monad. *)

From Stdlib Require Import ZArith Lia List String Ascii.
From Stdlib.Strings Require Import Byte.
From stdpp Require Import base tactics option list list_numbers strings pretty.

Local Open Scope Z_scope.

(** ** Bytes and byte order *)

#[global] Instance byte_inhabited : Inhabited byte := populate x00.

(** The numeric value of an [unsigned char]. *)
Definition u8 (b : byte) : Z := Z.of_N (Byte.to_N b).

(** [buf[i]]: the buffers handed to the sniffer by libpcap and by the ROHC
    library are at least as long as the code reads them.  A read past the
    end, undefined in C, yields 0 here. *)
Definition byte_at (buf : list byte) (i : nat) : Z := u8 (buf !!! i).

(** The byte order of the machine the sniffer runs on. *)
Inductive byte_order : Set :=
  | LittleEndian
  | BigEndian.

#[global] Instance byte_order_eq_dec : EqDecision byte_order.
Proof. solve_decision. Defined.

(** [memcpy(&x, buf + off, sizeof(uint16_t))]: the two bytes at [off]
    become a [uint16_t] in the byte order of the host. *)
Definition load_u16 (host : byte_order) (buf : list byte) (off : nat) : Z :=
  match host with
  | LittleEndian => byte_at buf off + 256 * byte_at buf (S off)
  | BigEndian => 256 * byte_at buf off + byte_at buf (S off)
  end.

(** [ntohs]: network (big-endian) to host order on 16 bits. *)
Definition ntohs (host : byte_order) (x : Z) : Z :=
  match host with
  | LittleEndian =>
      Z.lor (Z.shiftl (Z.land x 255) 8) (Z.land (Z.shiftr x 8) 255)
  | BigEndian => x
  end.

(** The value of the 16-bit big-endian field at [off], whatever the host. *)
Definition net_u16 (buf : list byte) (off : nat) : Z :=
  256 * byte_at buf off + byte_at buf (S off).

(** ** The RTP detection callback *)

Module Rtp.

Definition sip_port : Z := 5060.

(** [rtp_detect_cb]: the checks of the source in their order; each [goto
    not_rtp] is a [false] branch.  [ip] is only asserted non-NULL. *)
Definition rtp_detect_cb (host : byte_order) (ip udp payload : list byte)
    (payload_size : Z) : bool :=
  let udp_sport := load_u16 host udp 0 in
  let udp_dport := load_u16 host udp 2 in
  let udp_len := load_u16 host udp 4 in
  if (ntohs host udp_sport =? sip_port) && (ntohs host udp_dport =? sip_port)
  then false
  else if negb (udp_dport mod 2 =? 0) then false
  else if ntohs host udp_len >? 200 then false
  else if payload_size <? 12 then false
  else if negb (Z.land (Z.shiftr (byte_at payload 0) 6) 3 =? 2) then false
  else
    let rtp_pt := Z.land (byte_at payload 1) 127 in
    if negb (rtp_pt =? 3) && negb (rtp_pt =? 4) && negb (rtp_pt =? 18)
       && negb (rtp_pt =? 101)
    then false
    else true.

(** A UDP header as it is on the wire: four 16-bit big-endian fields. *)
Definition wire_u16 (x : Z) : list byte :=
  let hi := default x00 (Byte.of_N (Z.to_N ((x / 256) mod 256))) in
  let lo := default x00 (Byte.of_N (Z.to_N (x mod 256))) in
  [hi; lo].

Definition udp_header (sport dport len cksum : Z) : list byte :=
  wire_u16 sport ++ wire_u16 dport ++ wire_u16 len ++ wire_u16 cksum.

(** The fields of the header, read from the wire. *)
Definition udp_sport (udp : list byte) : Z := net_u16 udp 0.
Definition udp_dport (udp : list byte) : Z := net_u16 udp 2.
Definition udp_length (udp : list byte) : Z := net_u16 udp 4.

(** The payload types the callback accepts: GSM, G.723, G.729 and
    telephony-event. *)
Definition rtp_payload_types : list Z := [3; 4; 18; 101].

Definition pt_allowed (pt : Z) : bool :=
  bool_decide (pt ∈ rtp_payload_types).

(** The decision rule in the words of the specification, with the size of
    the UDP payload in rule 3. *)
Definition spec_looks_like_rtp (udp payload : list byte) (payload_size : Z)
    : bool :=
  negb ((udp_sport udp =? sip_port) && (udp_dport udp =? sip_port))
  && Z.even (udp_dport udp)
  && (payload_size <=? 200)
  && (12 <=? payload_size)
  && (byte_at payload 0 / 64 =? 2)
  && pt_allowed (byte_at payload 1 mod 128).

(** The same rule with the UDP length field of the header in rule 3. *)
Definition looks_like_rtp (udp payload : list byte) (payload_size : Z)
    : bool :=
  negb ((udp_sport udp =? sip_port) && (udp_dport udp =? sip_port))
  && Z.even (udp_dport udp)
  && (udp_length udp <=? 200)
  && (12 <=? payload_size)
  && (byte_at payload 0 / 64 =? 2)
  && pt_allowed (byte_at payload 1 mod 128).

(** The destination port is read with the parity it has on the wire: the
    host is big-endian, or the two bytes of the port have one parity. *)
Definition dport_parity_preserved (host : byte_order) (udp : list byte)
    : Prop :=
  host = BigEndian ∨ Z.odd (byte_at udp 2) = Z.odd (byte_at udp 3).

End Rtp.

(** ** Text written by [printf] *)

Definition nl : ascii := "010"%char.

(** ["%d"] and ["%u"]: the decimal writing of an integer. *)
Definition fmt_d (n : Z) : string := pretty n.

Definition hex_digit (n : Z) : ascii :=
  match n with
  | 0 => "0" | 1 => "1" | 2 => "2" | 3 => "3" | 4 => "4" | 5 => "5"
  | 6 => "6" | 7 => "7" | 8 => "8" | 9 => "9" | 10 => "a" | 11 => "b"
  | 12 => "c" | 13 => "d" | 14 => "e" | _ => "f"
  end%char.

(** ["%.2x"] of an [unsigned char]: two lower-case hexadecimal digits. *)
Definition fmt_02x (b : Z) : string :=
  String (hex_digit (b / 16)) (String (hex_digit (b mod 16)) "").

(** The lines of a text: the pieces between newlines. *)
Fixpoint split_lines (s : string) : list string :=
  match s with
  | EmptyString => [EmptyString]
  | String c s' =>
      if Ascii.eqb c nl then EmptyString :: split_lines s'
      else match split_lines s' with
           | l :: ls => String c l :: ls
           | [] => [String c EmptyString]
           end
  end.

(** Every line followed by a newline. *)
Definition unlines (ls : list string) : string :=
  foldr (λ l acc, l +:+ String nl acc) "" ls.

Fixpoint no_nl (s : string) : bool :=
  match s with
  | EmptyString => true
  | String c s' => negb (Ascii.eqb c nl) && no_nl s'
  end.

(** ** The packet comparator *)

Module Compare.

(** [memcmp(a + i, b + i, n)]: zero when the [n] bytes agree, else the
    difference of the first two that do not. *)
Fixpoint memcmp_from (a b : list byte) (i n : nat) : Z :=
  match n with
  | O => 0
  | S n' =>
      if byte_at a i =? byte_at b i then memcmp_from a b (S i) n'
      else byte_at a i - byte_at b i
  end.

Definition memcmp (a b : list byte) (n : Z) : Z :=
  memcmp_from a b 0 (Z.to_nat n).

(** [sprintf(str, "%c0x%.2x%c", sep1, b, sep2)] *)
Definition fmt_cell (sep1 : ascii) (b : Z) (sep2 : ascii) : string :=
  String sep1 ("0x" +:+ fmt_02x b +:+ String sep2 "").

(** The two inner [for(k ...)] loops and the blanks between them: one
    line of the dump, with the cells [0 .. j] of [str1] and [str2]. *)
Definition row_text (j : nat) (str1 str2 : list string) : string :=
  String.concat ""
    (map (λ k : nat, if (k <? j + 1)%nat then str1 !!! k +:+ "  "
                     else "        ") (seq 0 4))
  +:+ "      "
  +:+ String.concat "" (map (λ k : nat, str2 !!! k +:+ "  ") (seq 0 (j + 1))).

(** The line and the newline that ends it. *)
Definition print_row (j : nat) (str1 str2 : list string) : string :=
  row_text j str1 str2 +:+ String nl "".

(** The [for(i = 0; i < min_size; i++)] loop, entered at [i] with [n]
    iterations left, the column [j] and the cells written so far. *)
Fixpoint dump_loop (pkt1 pkt2 : list byte) (min_size : Z) (n : nat)
    (i : nat) (j : nat) (str1 str2 : list string) : string :=
  match n with
  | O => ""
  | S n' =>
      let differ := negb (byte_at pkt1 i =? byte_at pkt2 i) in
      let sep1 := if differ then "#"%char else "["%char in
      let sep2 := if differ then "#"%char else "]"%char in
      let str1' := <[j := fmt_cell sep1 (byte_at pkt1 i) sep2]> str1 in
      let str2' := <[j := fmt_cell sep1 (byte_at pkt2 i) sep2]> str2 in
      if (3 <=? j)%nat || (min_size <=? Z.of_nat i + 1) then
        print_row j str1' str2'
        +:+ dump_loop pkt1 pkt2 min_size n' (S i) 0 str1' str2'
      else dump_loop pkt1 pkt2 min_size n' (S i) (S j) str1' str2'
  end.

Definition banner_compare : string :=
  "------------------------------ Compare ------------------------------".
Definition banner_columns : string :=
  "--------- reference ----------         ----------- new --------------".
Definition banner_different : string :=
  "----------------------- packets are different -----------------------".

Definition sizes_text (pkt1_size pkt2_size min_size : Z) : string :=
  "packets have different sizes (" +:+ fmt_d pkt1_size +:+ " != "
  +:+ fmt_d pkt2_size +:+ "), compare only the " +:+ fmt_d min_size
  +:+ " first bytes".

(** [compare_packets]: the returned [valid] and the text written to the
    standard output. *)
Definition compare_packets (pkt1 : list byte) (pkt1_size : Z)
    (pkt2 : list byte) (pkt2_size : Z) : Z * string :=
  let min_size := Z.min pkt1_size pkt2_size in
  let min_size := Z.min 180 min_size in
  if (pkt1_size =? pkt2_size) && (memcmp pkt1 pkt2 pkt1_size =? 0)
  then (1, "")
  else
    (0,
     banner_compare +:+ String nl ""
     +:+ banner_columns +:+ String nl ""
     +:+ (if negb (pkt1_size =? pkt2_size)
          then sizes_text pkt1_size pkt2_size min_size +:+ String nl ""
          else "")
     +:+ dump_loop pkt1 pkt2 min_size (Z.to_nat min_size) 0 0
           (replicate 4 "") (replicate 4 "")
     +:+ banner_different +:+ String nl "").

(** The dump as an operator reads it: the lines that open with a bracket
    or a hash are the rows, four bytes to a row, eight columns to a cell;
    byte [i] is marked when its cell opens with a hash. *)
Definition is_dump_row (l : string) : bool :=
  match l with
  | String c _ => Ascii.eqb c "["%char || Ascii.eqb c "#"%char
  | EmptyString => false
  end.

Definition dump_rows (out : string) : list string :=
  filter (λ l, is_dump_row l = true) (split_lines out).

Definition marked (out : string) (i : nat) : bool :=
  match dump_rows out !! (i / 4)%nat with
  | Some row =>
      match String.get (8 * (i mod 4))%nat row with
      | Some c => Ascii.eqb c "#"%char
      | None => false
      end
  | None => false
  end.

(** Whether the bytes at [i] differ, and the character that opens the
    cell of byte [i]. *)
Definition differ_at (pkt1 pkt2 : list byte) (i : nat) : bool :=
  negb (byte_at pkt1 i =? byte_at pkt2 i).

Definition opening (differ : bool) : ascii :=
  if differ then "#"%char else "["%char.

(** A row of the dump that shows the [cnt] bytes from [i] on. *)
Definition row_shows (pkt1 pkt2 : list byte) (i cnt : nat) (row : string)
    : Prop :=
  is_dump_row row = true
  ∧ no_nl row = true
  ∧ ∀ c : nat, (c < cnt)%nat →
      String.get (8 * c) row = Some (opening (differ_at pkt1 pkt2 (i + c))).

(** The rows of a dump of the [n] bytes from [i] on, four to a row. *)
Inductive rows_show (pkt1 pkt2 : list byte) : nat → nat → list string → Prop :=
  | rows_show_nil (i : nat) : rows_show pkt1 pkt2 i 0 []
  | rows_show_cons (i n : nat) (row : string) (rows : list string) :
      (0 < n)%nat →
      row_shows pkt1 pkt2 i (n `min` 4) row →
      rows_show pkt1 pkt2 (i + 4) (n - 4) rows →
      rows_show pkt1 pkt2 i n (row :: rows).

End Compare.

(** ** The ring buffer of the last traces *)

Module Traces.

(** The maximum number of traces to keep, and the maximum length of one. *)
Definition MAX_LAST_TRACES : Z := 5000.
Definition MAX_TRACE_LEN : nat := 300.

(** Modelled from the spec: the trace levels of the ROHC library
    ([rohc_trace_level_t] of rohc.h), by rising severity; a line is echoed
    when its severity is warning or higher. *)
Inductive rohc_trace_level_t : Set :=
  | ROHC_TRACE_DEBUG
  | ROHC_TRACE_INFO
  | ROHC_TRACE_WARNING
  | ROHC_TRACE_ERROR.

Definition level_value (level : rohc_trace_level_t) : Z :=
  match level with
  | ROHC_TRACE_DEBUG => 0
  | ROHC_TRACE_INFO => 1
  | ROHC_TRACE_WARNING => 2
  | ROHC_TRACE_ERROR => 3
  end.

Definition level_descrs (level : rohc_trace_level_t) : string :=
  match level with
  | ROHC_TRACE_DEBUG => "DEBUG"
  | ROHC_TRACE_INFO => "INFO"
  | ROHC_TRACE_WARNING => "WARNING"
  | ROHC_TRACE_ERROR => "ERROR"
  end.

(** The globals [last_traces], [last_traces_first], [last_traces_last]. *)
Record trace_state : Type := {
  last_traces : list string;
  last_traces_first : Z;
  last_traces_last : Z
}.

(** The state [main] sets up: every slot empty, both indices -1. *)
Definition no_traces : trace_state :=
  {| last_traces := replicate (Z.to_nat MAX_LAST_TRACES) "";
     last_traces_first := -1;
     last_traces_last := -1 |}.

(** A C string ends at its first NUL. *)
Fixpoint c_str (s : string) : string :=
  match s with
  | EmptyString => EmptyString
  | String c s' => if Ascii.eqb c zero then EmptyString else String c (c_str s')
  end.

(** What a slot holds of the expanded format [msg], as ["%s"] prints it
    later: [vsnprintf] keeps at most [MAX_TRACE_LEN] characters. *)
Definition stored_trace (msg : string) : string :=
  c_str (String.substring 0 MAX_TRACE_LEN msg).

(** The part of [print_rohc_traces] that records the trace. *)
Definition record_trace (msg : string) (st : trace_state) : trace_state :=
  let last :=
    if last_traces_last st =? -1 then 0
    else (last_traces_last st + 1) mod MAX_LAST_TRACES in
  let traces := <[Z.to_nat last := stored_trace msg]> (last_traces st) in
  let first :=
    if last_traces_first st =? -1 then 0
    else if last_traces_first st =? last
         then (last_traces_first st + 1) mod MAX_LAST_TRACES
         else last_traces_first st in
  {| last_traces := traces;
     last_traces_first := first;
     last_traces_last := last |}.

(** [print_rohc_traces], with [msg] the expansion of [format] with its
    arguments: the text echoed on the standard output and the new state of
    the ring buffer.  [entity] and [profile] are not used by the source. *)
Definition print_rohc_traces (is_verbose : bool)
    (level : rohc_trace_level_t) (msg : string) (st : trace_state)
    : string * trace_state :=
  let echo :=
    if (level_value ROHC_TRACE_WARNING <=? level_value level) || is_verbose
    then "[" +:+ level_descrs level +:+ "] " +:+ msg
    else "" in
  (echo, record_trace msg st).

(** A run of calls of the callback, oldest first. *)
Definition trace_calls (is_verbose : bool)
    (calls : list (rohc_trace_level_t * string)) (st : trace_state)
    : string * trace_state :=
  foldl (λ acc call,
           let '(echo, st') :=
             print_rohc_traces is_verbose call.1 call.2 acc.2 in
           (acc.1 +:+ echo, st'))
        ("", st) calls.

(** The dump of the traces in [sniff]: [None] when there is no trace,
    else the count the first line announces and the slots the loop
    prints, in its order. *)
Definition traces_to_print (st : trace_state) : option (Z * list string) :=
  let first := last_traces_first st in
  let last := last_traces_last st in
  if (first =? -1) || (last =? -1) then None
  else if first <=? last then
    Some (last - first,
          (λ i, last_traces st !!! Z.to_nat i)
            <$> seqZ first (last - first + 1))
  else
    Some (MAX_LAST_TRACES - first + last,
          (λ i, last_traces st !!! Z.to_nat (i mod MAX_LAST_TRACES))
            <$> seqZ first (MAX_LAST_TRACES + last - first + 1)).

Definition traces_header (n : Z) : string :=
  "print the last " +:+ fmt_d n +:+ " traces..." +:+ String nl "".

Definition no_trace_text : string := "no trace to display" +:+ String nl "".

(** The dump itself: the text it writes to the standard error and the
    globals it hands on; it reads them and assigns none. *)
Definition print_last_traces (st : trace_state) : string * trace_state :=
  match traces_to_print st with
  | None => (no_trace_text, st)
  | Some (n, ls) => (traces_header n +:+ String.concat "" ls, st)
  end.

(** The trace lines the dump prints. *)
Definition printed_traces (st : trace_state) : list string :=
  match traces_to_print st with
  | None => []
  | Some (_, ls) => ls
  end.

(** The states the callback can leave: no trace yet; or the slots from 0
    to [last] filled; or every slot filled, the oldest right after the
    newest. *)
Definition traces_wf (st : trace_state) : Prop :=
  length (last_traces st) = Z.to_nat MAX_LAST_TRACES
  ∧ ((last_traces_first st = -1 ∧ last_traces_last st = -1)
     ∨ (last_traces_first st = 0
        ∧ 0 ≤ last_traces_last st < MAX_LAST_TRACES)
     ∨ (0 ≤ last_traces_last st < MAX_LAST_TRACES
        ∧ last_traces_first st
          = (last_traces_last st + 1) mod MAX_LAST_TRACES)).

(** The last [n] elements of a list. *)
Definition lastn {A} (n : nat) (l : list A) : list A :=
  drop (length l - n) l.

End Traces.

(** ** Calls out of the sniffer *)

Import Compare Traces.

(** The fields of [struct pcap_pkthdr] the sniffer reads: the length of
    the frame on the wire and the length captured, both [bpf_u_int32]. *)
Record pcap_pkthdr : Type := {
  len : Z;
  caplen : Z
}.

(** Compression information of the last packet, as
    [rohc_comp_get_last_packet_info2] fills it. *)
Record last_packet_info : Type := {
  is_context_init : bool;
  context_id : Z
}.

(** An open [pcap_dumper_t]; [None] is the NULL pointer. *)
Definition dumper : Type := nat.

(** What an engine call hands back: the traces the library emitted
    through the callback during the call, the returned size, and the
    bytes it wrote into the output buffer. *)
Record engine_result : Type := {
  emitted : list (rohc_trace_level_t * string);
  out_size : Z;
  out_bytes : list byte
}.

Inductive event : Type → Type :=
  | EvStdout (text : string) : event unit
  | EvStderr (text : string) : event unit
  | EvCompress (ip_packet : list byte) (ip_size : Z) : event engine_result
  | EvLastPacketInfo : event (option last_packet_info)
  | EvDecompress (rohc_packet : list byte) (rohc_size : Z)
      : event engine_result
  | EvDumpOpen (filename : string) : event (option dumper)
  | EvDump (d : option dumper) (header : pcap_pkthdr) (packet : list byte)
      : event unit
  | EvDumpClose (d : option dumper) : event unit
  | EvUnlink (filename : string) : event unit
  | EvAbort : event Empty_set.

(** A program: a result, or a call and what follows its answer. *)
Inductive prog (R : Type) : Type :=
  | Ret (r : R)
  | Vis {X : Type} (e : event X) (k : X → prog R).

Arguments Ret {R} r.
Arguments Vis {R X} e k.

Fixpoint prog_bind {A B : Type} (f : A → prog B) (p : prog A) : prog B :=
  match p with
  | Ret a => f a
  | Vis e k => Vis e (λ x, prog_bind f (k x))
  end.

#[global] Instance prog_ret : MRet prog := @Ret.
#[global] Instance prog_mbind : MBind prog := @prog_bind.

Definition call {X : Type} (e : event X) : prog X := Vis e Ret.

(** [assert(0)]: the process aborts; nothing follows. *)
Definition abort {R : Type} : prog R :=
  Vis EvAbort (λ x : Empty_set, match x with end).

(** The standard error texts in order, then the abort. *)
Fixpoint die_after {R : Type} (texts : list string) : prog R :=
  match texts with
  | [] => abort
  | t :: ts => Vis (EvStderr t) (λ _, die_after ts)
  end.

(** The arguments of the first call of [rohc_compress], when the program
    reaches it through writes to the standard streams only; [None] when
    it ends, or calls anything else, before. *)
Fixpoint first_compress {R : Type} (p : prog R)
    : option (list byte * Z) :=
  match p with
  | Ret _ => None
  | Vis e k =>
      match e in event X return (X → prog R) → option (list byte * Z) with
      | EvStdout _ => λ k, first_compress (k tt)
      | EvStderr _ => λ k, first_compress (k tt)
      | EvCompress ip_packet ip_size => λ _, Some (ip_packet, ip_size)
      | _ => λ _, None
      end k
  end.

(** ** The pipeline: compress, decompress, compare *)

Module Pipeline.

Definition ETHER_FRAME_MIN_LEN : Z := 60.
Definition LINUX_COOKED_HDR_LEN : Z := 16.

(** Modelled from the spec: [ETHER_HDR_LEN] of net/ethernet.h, the 14
    bytes of an Ethernet header. *)
Definition ETHER_HDR_LEN : Z := 14.

(** Modelled from the spec: [sizeof(struct ip6_hdr)], the 40 bytes of the
    fixed IPv6 header. *)
Definition sizeof_ip6_hdr : Z := 40.

(** The offsets of [tot_len] in [struct iphdr] and of [ip6_plen] in
    [struct ip6_hdr] (netinet/ip.h, netinet/ip6.h). *)
Definition iphdr_tot_len_off : nat := 2.
Definition ip6_plen_off : nat := 4.

(** Conversions of C between [int] and [unsigned int], 32 bits wide. *)
Definition to_u32 (x : Z) : Z := x mod 2 ^ 32.
Definition to_int (x : Z) : Z := (x + 2 ^ 31) mod 2 ^ 32 - 2 ^ 31.

(** The link layers [sniff] accepts and the header length of each. *)
Inductive link_layer : Set :=
  | DLT_EN10MB
  | DLT_LINUX_SLL
  | DLT_RAW.

#[global] Instance link_layer_eq_dec : EqDecision link_layer.
Proof. solve_decision. Defined.

Definition link_len_of (l : link_layer) : Z :=
  match l with
  | DLT_EN10MB => ETHER_HDR_LEN
  | DLT_LINUX_SLL => LINUX_COOKED_HDR_LEN
  | DLT_RAW => 0
  end.

(** The globals the pipeline reaches through the trace callback. *)
Record globals : Type := {
  is_verbose : bool;
  traces : trace_state
}.

(** The callbacks the library made during a call: their echo (empty when
    no line was echoed) goes to the standard output, their lines into the
    ring buffer. *)
Definition replay_traces (r : engine_result) (g : globals) : prog globals :=
  let '(echo, tr) := trace_calls (is_verbose g) (emitted r) (traces g) in
  call (EvStdout echo) ;;
  mret {| is_verbose := is_verbose g; traces := tr |}.

(** The IP version nibble and the total length the padding check reads
    from the IP header. *)
Definition ip_version (ip_packet : list byte) : Z :=
  Z.land (Z.shiftr (byte_at ip_packet 0) 4) 15.

Definition ip_tot_len (host : byte_order) (ip_packet : list byte) : Z :=
  if ip_version ip_packet =? 4
  then ntohs host (load_u16 host ip_packet iphdr_tot_len_off)
  else sizeof_ip6_hdr + ntohs host (load_u16 host ip_packet ip6_plen_off).

(** Both lengths are [bpf_u_int32] and go through the conversion d:
    they are printed as the [int] of the same 32 bits. *)
Definition bad_pcap_text (header : pcap_pkthdr) : string :=
  "bad PCAP packet (len = " +:+ fmt_d (to_int (len header)) +:+ ", caplen = "
  +:+ fmt_d (to_int (caplen header)) +:+ ")" +:+ String nl "".

Definition padding_text (ip_size tot_len : Z) : string :=
  "the Ethernet frame has " +:+ fmt_d (ip_size - tot_len)
  +:+ " bytes of padding after the " +:+ fmt_d tot_len
  +:+ " byte IP packet!" +:+ String nl "".

Definition default_dump : string := "./dump_stream_default.pcap".

Definition cid_dump_filename (cid : Z) : string :=
  "./dump_stream_cid_" +:+ fmt_d cid +:+ ".pcap".

(** What the pipeline leaves behind: the returned code, the table of
    dumpers, the CID written through [cid], the globals. *)
Record pipeline_result : Type := {
  ret : Z;
  dumpers_out : list (option dumper);
  cid_out : Z;
  globals_out : globals
}.

(** The tail of [compress_decompress] from the query of the compression
    information on.  The library hands out context ids below the length of
    the table of dumpers; past its end, where C would write out of bounds,
    the table here is left as it is and reads as NULL. *)
Definition after_compress (header : pcap_pkthdr) (packet : list byte)
    (ip_packet : list byte) (ip_size : Z) (comp : engine_result)
    (dumpers : list (option dumper)) (cid : Z) (g : globals)
    : prog pipeline_result :=
  info ← call EvLastPacketInfo;
  match info with
  | None =>
      call (EvStderr ("failed to get compression info" +:+ String nl "")) ;;
      mret {| ret := -4; dumpers_out := dumpers; cid_out := cid;
              globals_out := g |}
  | Some info =>
      let slot := Z.to_nat (context_id info) in
      dumpers ←
        (if is_context_init info then
           let dump_filename := cid_dump_filename (context_id info) in
           (if bool_decide (dumpers !!! slot ≠ None) then
              call (EvStdout ("replace dump file '" +:+ dump_filename
                              +:+ "' for context with ID "
                              +:+ fmt_d (context_id info)
                              +:+ String nl "")) ;;
              call (EvDumpClose (dumpers !!! slot)) ;;
              call (EvUnlink dump_filename)
            else mret tt) ;;
           d ← call (EvDumpOpen dump_filename);
           let dumpers := <[slot := d]> dumpers in
           if bool_decide (dumpers !!! slot = None) then
             call (EvStderr ("failed to open new dump file '"
                             +:+ dump_filename +:+ "' for context with ID "
                             +:+ fmt_d (context_id info)
                             +:+ String nl "")) ;;
             abort
           else mret dumpers
         else mret dumpers);
      call (EvDump (dumpers !!! slot) header packet) ;;
      let cid := context_id info in
      decomp ← call (EvDecompress (out_bytes comp) (out_size comp));
      g ← replay_traces decomp g;
      if out_size decomp <=? 0 then
        call (EvStderr ("decompression failed" +:+ String nl "")) ;;
        mret {| ret := -2; dumpers_out := dumpers; cid_out := cid;
                globals_out := g |}
      else
        let '(valid, text) :=
          compare_packets ip_packet ip_size (out_bytes decomp)
            (out_size decomp) in
        call (EvStdout text) ;;
        if valid =? 0 then
          call (EvStderr ("comparison with original packet failed"
                          +:+ String nl "")) ;;
          mret {| ret := 0; dumpers_out := dumpers; cid_out := cid;
                  globals_out := g |}
        else
          mret {| ret := 1; dumpers_out := dumpers; cid_out := cid;
                  globals_out := g |}
  end.

(** [compress_decompress] *)
Definition compress_decompress (host : byte_order) (header : pcap_pkthdr)
    (packet : list byte) (link_len_src : Z)
    (dumpers : list (option dumper)) (cid : Z) (g : globals)
    : prog pipeline_result :=
  if (len header <=? to_u32 link_len_src)
     || negb (len header =? caplen header)
  then
    call (EvStderr (bad_pcap_text header)) ;;
    mret {| ret := -3; dumpers_out := dumpers; cid_out := cid;
            globals_out := g |}
  else
    let ip_packet := drop (Z.to_nat link_len_src) packet in
    let ip_size := to_int (len header - link_len_src) in
    ip_size ←
      (if (link_len_src =? ETHER_HDR_LEN)
          && (len header =? ETHER_FRAME_MIN_LEN)
       then
         let tot_len := ip_tot_len host ip_packet in
         if tot_len <? ip_size then
           call (EvStderr (padding_text ip_size tot_len)) ;;
           mret tot_len
         else mret ip_size
       else mret ip_size);
    comp ← call (EvCompress ip_packet ip_size);
    g ← replay_traces comp g;
    if out_size comp <=? 0 then
      call (EvStderr ("compression failed" +:+ String nl "")) ;;
      d ← call (EvDumpOpen default_dump);
      match d with
      | None =>
          call (EvStderr ("failed to open new dump file '" +:+ default_dump
                          +:+ "'" +:+ String nl "")) ;;
          abort
      | Some _ =>
          call (EvStderr ("dump packet in file '" +:+ default_dump +:+ "'"
                          +:+ String nl "")) ;;
          call (EvDump d header packet) ;;
          call (EvStderr ("close dump file" +:+ String nl "")) ;;
          call (EvDumpClose d) ;;
          mret {| ret := -1; dumpers_out := dumpers; cid_out := cid;
                  globals_out := g |}
      end
    else after_compress header packet ip_packet ip_size comp dumpers cid g.

(** The payload the engine sees: the first [ip_size] bytes at
    [ip_packet]. *)
Definition engine_payload (arg : list byte * Z) : list byte :=
  take (Z.to_nat arg.2) arg.1.

End Pipeline.

(** ** The body of the capture loop *)

Module Sniff.

Import Pipeline.

(** The device MTU, the snapshot length [sniff] opens the capture with:
    libpcap never hands over more bytes of a frame. *)
Definition DEV_MTU : Z := 1518.

(** A frame as [pcap_next] gives it: [caplen] bytes, at most [DEV_MTU]. *)
Definition captured (header : pcap_pkthdr) (packet : list byte) : Prop :=
  0 ≤ caplen header ≤ DEV_MTU ∧ Z.of_nat (length packet) = caplen header.

(** The locals of [sniff] that live across iterations, and the globals. *)
Record sniff_state : Type := {
  counter : Z;
  nb_ok : Z;
  nb_bad : Z;
  nb_internal_err : Z;
  err_comp : Z;
  err_decomp : Z;
  nb_ref : Z;
  dumpers : list (option dumper);
  sniff_globals : globals
}.

Definition tab : string := String "009"%char "".

(** The statistics line. *)
Definition stats_line (cid : Z) (st : sniff_state) : string :=
  "packet #" +:+ fmt_d (counter st) +:+ ", CID " +:+ fmt_d cid
  +:+ ": stats OK, ERR(COMP), ERR(DECOMP), ERR(REF), ERR(BAD), ERR(INTERNAL)"
  +:+ tab +:+ "=" +:+ tab +:+ fmt_d (nb_ok st)
  +:+ tab +:+ fmt_d (err_comp st)
  +:+ tab +:+ fmt_d (err_decomp st)
  +:+ tab +:+ fmt_d (nb_ref st)
  +:+ tab +:+ fmt_d (nb_bad st)
  +:+ tab +:+ fmt_d (nb_internal_err st)
  +:+ String nl "".

(** The chain of [if(ret == ...)] that counts the outcome, on
    [unsigned int] counters. *)
Definition count_outcome (r : pipeline_result) (st : sniff_state)
    : sniff_state :=
  let bump (x : Z) := to_u32 (x + 1) in
  let st :=
    {| counter := counter st; nb_ok := nb_ok st; nb_bad := nb_bad st;
       nb_internal_err := nb_internal_err st; err_comp := err_comp st;
       err_decomp := err_decomp st; nb_ref := nb_ref st;
       dumpers := dumpers_out r; sniff_globals := globals_out r |} in
  if ret r =? -1 then
    {| counter := counter st; nb_ok := nb_ok st; nb_bad := nb_bad st;
       nb_internal_err := nb_internal_err st;
       err_comp := bump (err_comp st);
       err_decomp := err_decomp st; nb_ref := nb_ref st;
       dumpers := dumpers st; sniff_globals := sniff_globals st |}
  else if ret r =? -2 then
    {| counter := counter st; nb_ok := nb_ok st; nb_bad := nb_bad st;
       nb_internal_err := nb_internal_err st; err_comp := err_comp st;
       err_decomp := bump (err_decomp st);
       nb_ref := nb_ref st;
       dumpers := dumpers st; sniff_globals := sniff_globals st |}
  else if ret r =? 0 then
    {| counter := counter st; nb_ok := nb_ok st; nb_bad := nb_bad st;
       nb_internal_err := nb_internal_err st; err_comp := err_comp st;
       err_decomp := err_decomp st;
       nb_ref := bump (nb_ref st);
       dumpers := dumpers st; sniff_globals := sniff_globals st |}
  else if ret r =? 1 then
    {| counter := counter st;
       nb_ok := bump (nb_ok st);
       nb_bad := nb_bad st;
       nb_internal_err := nb_internal_err st; err_comp := err_comp st;
       err_decomp := err_decomp st; nb_ref := nb_ref st;
       dumpers := dumpers st; sniff_globals := sniff_globals st |}
  else if ret r =? -3 then
    {| counter := counter st; nb_ok := nb_ok st;
       nb_bad := bump (nb_bad st);
       nb_internal_err := nb_internal_err st; err_comp := err_comp st;
       err_decomp := err_decomp st; nb_ref := nb_ref st;
       dumpers := dumpers st; sniff_globals := sniff_globals st |}
  else
    {| counter := counter st; nb_ok := nb_ok st; nb_bad := nb_bad st;
       nb_internal_err := bump (nb_internal_err st);
       err_comp := err_comp st;
       err_decomp := err_decomp st; nb_ref := nb_ref st;
       dumpers := dumpers st; sniff_globals := sniff_globals st |}.

(** The loop body after [compress_decompress] has returned: count the
    outcome; in case of problem print the statistics and the recorded
    traces, then die.  [fflush] writes nothing of its own. *)
Definition after_pipeline (st : sniff_state) (r : pipeline_result)
    : prog sniff_state :=
  let st := count_outcome r st in
  if negb (ret r =? 1) then
    call (EvStderr (stats_line (cid_out r) st)) ;;
    call (EvStderr (print_last_traces (traces (sniff_globals st))).1) ;;
    abort
  else mret st.

(** One iteration of the [while] loop of [sniff], for the frame
    [pcap_next] returned. *)
Definition sniff_packet (host : byte_order) (link_len_src : Z)
    (st : sniff_state) (header : pcap_pkthdr) (packet : list byte)
    : prog sniff_state :=
  let st :=
    {| counter := to_u32 (counter st + 1); nb_ok := nb_ok st;
       nb_bad := nb_bad st; nb_internal_err := nb_internal_err st;
       err_comp := err_comp st; err_decomp := err_decomp st;
       nb_ref := nb_ref st; dumpers := dumpers st;
       sniff_globals := sniff_globals st |} in
  (if 1 <? counter st then call (EvStdout (String "013"%char ""))
   else mret tt) ;;
  call (EvStdout ("packet #" +:+ fmt_d (counter st))) ;;
  r ← compress_decompress host header packet link_len_src (dumpers st) 0
        (sniff_globals st);
  after_pipeline st r.

End Sniff.

Import Rtp Pipeline Sniff.

(** ** Sample frames and states *)

Module FrameSamples.

(** An IPv4 header of 20 bytes whose total length says 28, and 26 bytes
    after it: with 14 bytes of Ethernet header, a frame of 60 bytes. *)
Definition ipv4_28 : list byte :=
  [x45; x00; x00; x1c; x00; x00; x40; x00; x40; x11; x00; x00;
   x0a; x00; x00; x01; x0a; x00; x00; x02] ++ replicate 26 x00.

Definition ether_60 : list byte := replicate 14 x00 ++ ipv4_28.

Definition header_60 : pcap_pkthdr := {| len := 60; caplen := 60 |}.

(** The same bytes under a version nibble of 0: neither IPv4 nor IPv6. *)
Definition version_0 : list byte :=
  replicate 14 x00 ++ [x05; x00; x00; x1c; x00; x02] ++ replicate 40 x00.

(** A frame cut short by the capture: 60 bytes on the wire, 40 captured. *)
Definition header_cut : pcap_pkthdr := {| len := 60; caplen := 40 |}.

Definition quiet : globals := {| is_verbose := false; traces := no_traces |}.

Definition fresh_state : sniff_state :=
  {| counter := 1; nb_ok := 0; nb_bad := 0; nb_internal_err := 0;
     err_comp := 0; err_decomp := 0; nb_ref := 0;
     dumpers := [None; None]; sniff_globals := quiet |}.

(** The pipeline came back with -2 after the library had emitted one
    trace. *)
Definition one_trace : list (rohc_trace_level_t * string) :=
  [(ROHC_TRACE_ERROR, "CRC failure")].

Definition failed_decompression : pipeline_result :=
  {| ret := -2; dumpers_out := [Some 0%nat; None]; cid_out := 0;
     globals_out :=
       {| is_verbose := false;
          traces := (trace_calls false one_trace no_traces).2 |} |}.

End FrameSamples.

(** ** Sample inputs *)

Module Samples.

(** Twenty bytes of payload: version 2, payload type 3 (GSM). *)
Definition rtp_payload_20 : list byte := [x80; x03] ++ replicate 18 x00.

(** 196 bytes of the same: a UDP datagram of 204 bytes. *)
Definition rtp_payload_196 : list byte := [x80; x03] ++ replicate 194 x00.

(** UDP headers of datagrams that carry 20 bytes, from port 40000 to the
    ports 4097 (0x1001), 5061 and 4096. *)
Definition udp_to_4097 : list byte := udp_header 40000 4097 28 0.
Definition udp_to_5061 : list byte := udp_header 40000 5061 28 0.
Definition udp_to_4096 : list byte := udp_header 40000 4096 28 0.

(** The UDP header of a datagram that carries 196 bytes to port 4096. *)
Definition udp_196_to_4096 : list byte := udp_header 40000 4096 204 0.

(** Two packets of 181 bytes that differ in their last byte only. *)
Definition zeros_181 : list byte := replicate 181 x00.
Definition zeros_180_one : list byte := replicate 180 x00 ++ [x01].

(** Two packets of 5 bytes that differ in their second byte. *)
Definition five_bytes : list byte := [x45; x00; x00; x1c; x01].
Definition five_bytes' : list byte := [x45; x01; x00; x1c; x01].

End Samples.

(** ** Runs of a program *)

(** A call as a run records it: what was asked and what came back. *)
Inductive call_log : Type :=
  | LStdout (text : string)
  | LStderr (text : string)
  | LCompress (ip_packet : list byte) (ip_size : Z) (answer : engine_result)
  | LLastPacketInfo (answer : option last_packet_info)
  | LDecompress (rohc_packet : list byte) (rohc_size : Z)
      (answer : engine_result)
  | LDumpOpen (filename : string) (answer : option dumper)
  | LDump (d : option dumper) (header : pcap_pkthdr) (packet : list byte)
  | LDumpClose (d : option dumper)
  | LUnlink (filename : string)
  | LAbort.

Definition log_of {X : Type} (e : event X) : X → call_log :=
  match e in event X return X → call_log with
  | EvStdout text => λ _, LStdout text
  | EvStderr text => λ _, LStderr text
  | EvCompress ip_packet ip_size => λ a, LCompress ip_packet ip_size a
  | EvLastPacketInfo => λ a, LLastPacketInfo a
  | EvDecompress rohc_packet rohc_size =>
      λ a, LDecompress rohc_packet rohc_size a
  | EvDumpOpen filename => λ a, LDumpOpen filename a
  | EvDump d header packet => λ _, LDump d header packet
  | EvDumpClose d => λ _, LDumpClose d
  | EvUnlink filename => λ _, LUnlink filename
  | EvAbort => λ _, LAbort
  end.

Definition is_abort {X : Type} (e : event X) : Prop :=
  match e with
  | EvAbort => True
  | _ => False
  end.

(** [runs p tr res]: answered one way or another by the library and by
    libpcap, the program makes the calls [tr] in their order and then
    returns [r] ([res = Some r]) or dies in [assert(0)] ([res = None]). *)
Fixpoint runs {R : Type} (p : prog R) (tr : list call_log) (res : option R)
    : Prop :=
  match p with
  | Ret r => tr = [] ∧ res = Some r
  | Vis e k =>
      (∃ x tr', tr = log_of e x :: tr' ∧ runs (k x) tr' res)
      ∨ (is_abort e ∧ tr = [LAbort] ∧ res = None)
  end.

(** The calls of a run that leave the process: into the ROHC library,
    into libpcap and to the file system; the writes to the standard
    streams are left out. *)
Inductive call_tag : Set :=
  | TCompress
  | TLastPacketInfo
  | TDecompress
  | TDumpOpen
  | TDump
  | TDumpClose
  | TUnlink
  | TAbort.

Definition tag_of (c : call_log) : option call_tag :=
  match c with
  | LStdout _ | LStderr _ => None
  | LCompress _ _ _ => Some TCompress
  | LLastPacketInfo _ => Some TLastPacketInfo
  | LDecompress _ _ _ => Some TDecompress
  | LDumpOpen _ _ => Some TDumpOpen
  | LDump _ _ _ => Some TDump
  | LDumpClose _ => Some TDumpClose
  | LUnlink _ => Some TUnlink
  | LAbort => Some TAbort
  end.

Definition tags (tr : list call_log) : list call_tag := omap tag_of tr.

(** The dumpers a run closes, in the order it closes them. *)
Definition closed (tr : list call_log) : list (option dumper) :=
  omap (λ c, match c with LDumpClose d => Some d | _ => None end) tr.

(** ** The capture loop and its end *)

Module Session.

(** The iterations of the [while] loop of [sniff] for the frames
    [pcap_next] returns one after the other while [stop_program] is not
    set. *)
Fixpoint sniff_frames (host : byte_order) (link_len_src : Z)
    (frames : list (pcap_pkthdr * list byte)) (st : sniff_state)
    : prog sniff_state :=
  match frames with
  | [] => mret st
  | (header, packet) :: frames =>
      st ← sniff_packet host link_len_src st header packet;
      sniff_frames host link_len_src frames st
  end.

(** The [for] loop that closes the dumpers after the capture loop, from
    the context [i] on, [n] contexts left. *)
Fixpoint close_dumpers_from (dumpers : list (option dumper)) (i n : nat)
    : prog unit :=
  match n with
  | O => mret tt
  | S n' =>
      (if bool_decide (dumpers !!! i ≠ None) then
         call (EvStdout ("close dump file for context with ID "
                         +:+ fmt_d (Z.of_nat i) +:+ String nl "")) ;;
         call (EvDumpClose (dumpers !!! i))
       else mret tt) ;;
      close_dumpers_from dumpers (S i) n'
  end.

(** What [sniff] does between the end of the capture loop and the
    release of the compressor, the decompressor and the capture. *)
Definition sniff_end (stop_program : bool) (max_contexts : nat)
    (dumpers : list (option dumper)) : prog bool :=
  (if stop_program
   then call (EvStdout ("program stopped by signal" +:+ String nl ""))
   else mret tt) ;;
  close_dumpers_from dumpers 0 max_contexts ;;
  mret true.

End Session.

(** ** The command line *)

Module Main.

Section Main.

(** Of rohc.h and the C library, not of the sniffer: the greatest small
    and large CIDs, the version of the ROHC library, and [atoi]. *)
Variables ROHC_SMALL_CID_MAX ROHC_LARGE_CID_MAX : Z.
Variable rohc_version : string.
Variable atoi : string → Z.

Definition line (s : string) : string := s +:+ String nl "".

(** The text of [usage]. *)
Definition usage : string :=
  line "ROHC sniffer tool: test the ROHC library with sniffed traffic"
  +:+ line ""
  +:+ line "usage: rohc_sniffer [OPTIONS] CID_TYPE DEVICE"
  +:+ line ""
  +:+ line "with:"
  +:+ line "  CID_TYPE            The type of CID to use among 'smallcid'"
  +:+ line "                      and 'largecid'"
  +:+ line "  DEVICE              The name of the network device to use"
  +:+ line ""
  +:+ line "options:"
  +:+ line "  -v                  Print version information and exit"
  +:+ line "  -h                  Print this usage and exit"
  +:+ line "  --max-contexts NUM  The maximum number of ROHC contexts to"
  +:+ line "                      simultaneously use during the test"
  +:+ line "  --verbose           Make the test more verbose".

Definition version_text : string :=
  line ("ROHC sniffer program, based on library version " +:+ rohc_version).

(** The bound is printed with the conversion u; it is not negative. *)
Definition bad_max_contexts_text (max : Z) : string :=
  line ("the maximum number of ROHC contexts should be between 1 and "
        +:+ fmt_d (max + 1))
  +:+ line "".

Definition bad_cid_type_text (cid_type : string) : string :=
  line ("invalid CID type '" +:+ cid_type
        +:+ "', only 'smallcid' and 'largecid' expected").

(** The locals of [main] the arguments set, and [is_verbose]. *)
Record options : Type := {
  opt_verbose : bool;
  max_contexts : Z;
  cid_type : option string;
  device_name : option string
}.

(** How [main] ends: at the label [error] with code 1, the texts it wrote
    to the standard output and error; or in the call of [sniff], whose
    result gives the code; or in undefined behaviour, a NULL pointer
    handed to [atoi] or to [strcmp]. *)
Inductive main_result : Type :=
  | MainError (out err : string)
  | MainSniff (is_verbose : bool) (use_large_cid : Z) (max_contexts : Z)
      (device_name : string)
  | MainUndefined.

(** The [for] loop over the arguments: [inl] when it leaves to [error]
    or reads past the last argument, [inr] when it reaches the end. *)
Fixpoint parse_args (argv : list string) (o : options)
    : main_result + options :=
  match argv with
  | [] => inr o
  | arg :: rest =>
      if String.eqb arg "-v" then inl (MainError version_text "")
      else if String.eqb arg "-h" then inl (MainError usage "")
      else if String.eqb arg "--verbose" then
        parse_args rest
          {| opt_verbose := true; max_contexts := max_contexts o;
             cid_type := cid_type o; device_name := device_name o |}
      else if String.eqb arg "--max-contexts" then
        match rest with
        | [] => inl MainUndefined
        | value :: rest' =>
            parse_args rest'
              {| opt_verbose := opt_verbose o; max_contexts := atoi value;
                 cid_type := cid_type o; device_name := device_name o |}
        end
      else if bool_decide (cid_type o = None) then
        parse_args rest
          {| opt_verbose := opt_verbose o; max_contexts := max_contexts o;
             cid_type := Some arg; device_name := device_name o |}
      else if bool_decide (device_name o = None) then
        parse_args rest
          {| opt_verbose := opt_verbose o; max_contexts := max_contexts o;
             cid_type := cid_type o; device_name := Some arg |}
      else inl (MainError usage "")
  end.

(** The checks of [main] after the loop. *)
Definition check_options (o : options) : main_result :=
  match cid_type o with
  | None => MainUndefined
  | Some cid =>
      let checked (use_large_cid max : Z) : main_result :=
        if (max_contexts o <? 1) || (max_contexts o >? max + 1) then
          MainError usage (bad_max_contexts_text max)
        else
          match device_name o with
          | None => MainError usage ""
          | Some device =>
              MainSniff (opt_verbose o) use_large_cid (max_contexts o) device
          end in
      if String.eqb cid "smallcid" then checked 0 ROHC_SMALL_CID_MAX
      else if String.eqb cid "largecid" then checked 1 ROHC_LARGE_CID_MAX
      else MainError "" (bad_cid_type_text cid)
  end.

(** [main], up to the call of [sniff]; [argv] with the name of the
    program first. *)
Definition main (argv : list string) : main_result :=
  if (Z.of_nat (length argv) <=? 1) then MainError usage ""
  else
    match parse_args (tail argv)
            {| opt_verbose := false; max_contexts := ROHC_SMALL_CID_MAX + 1;
               cid_type := None; device_name := None |} with
    | inl r => r
    | inr o => check_options o
    end.

(** The code [main] returns, given what [sniff] returns when called. *)
Definition exit_code (r : main_result) (sniff_ok : bool) : option Z :=
  match r with
  | MainError _ _ => Some 1
  | MainSniff _ _ _ _ => Some (if sniff_ok then 0 else 1)
  | MainUndefined => None
  end.

End Main.

End Main.

(** ** A sample run *)

Module RunSamples.

(** The library compresses the 28 bytes of [FrameSamples.ipv4_28] into
    three, says so in a trace, opens context 0, and gives the 28 bytes
    back. *)
Definition compressed : engine_result :=
  {| emitted := [(ROHC_TRACE_DEBUG, "IR packet")]; out_size := 3;
     out_bytes := [xfd; x04; x00] |}.

Definition new_context_0 : last_packet_info :=
  {| is_context_init := true; context_id := 0 |}.

Definition decompressed : engine_result :=
  {| emitted := []; out_size := 28;
     out_bytes := take 28 FrameSamples.ipv4_28 |}.

Definition success_log : list call_log :=
  [LStderr (padding_text 46 28);
   LCompress FrameSamples.ipv4_28 28 compressed;
   LStdout "";
   LLastPacketInfo (Some new_context_0);
   LDumpOpen (cid_dump_filename 0) (Some 7%nat);
   LDump (Some 7%nat) FrameSamples.header_60 FrameSamples.ether_60;
   LDecompress [xfd; x04; x00] 3 decompressed;
   LStdout "";
   LStdout ""].

Definition success_result : pipeline_result :=
  {| ret := 1; dumpers_out := [Some 7%nat; None]; cid_out := 0;
     globals_out :=
       {| is_verbose := false;
          traces := record_trace "IR packet" no_traces |} |}.

End RunSamples.

(** ** A sample iteration and a sample end of session *)

Module LoopSamples.

(** The state after the sample run, met as the second frame of a session
    whose first was a success. *)
Definition before : sniff_state :=
  {| counter := 1; nb_ok := 1; nb_bad := 0; nb_internal_err := 0;
     err_comp := 0; err_decomp := 0; nb_ref := 0;
     dumpers := [None; None]; sniff_globals := FrameSamples.quiet |}.

Definition after : sniff_state :=
  {| counter := 2; nb_ok := 2; nb_bad := 0; nb_internal_err := 0;
     err_comp := 0; err_decomp := 0; nb_ref := 0;
     dumpers := [Some 7%nat; None];
     sniff_globals := globals_out RunSamples.success_result |}.

Definition iteration_log : list call_log :=
  [LStdout (String "013"%char ""); LStdout "packet #2"]
  ++ RunSamples.success_log.

(** The session is stopped by a signal with the dumper 7 open for the
    context 0 of two. *)
Definition end_log : list call_log :=
  [LStdout ("program stopped by signal" +:+ String nl "");
   LStdout ("close dump file for context with ID 0" +:+ String nl "");
   LDumpClose (Some 7%nat)].

End LoopSamples.

(** The cursors of the ring after [K] calls of the trace callback. *)
Definition cursors_after (K : nat) (st : trace_state) : Prop :=
  length (last_traces st) = Z.to_nat MAX_LAST_TRACES
  ∧ match K with
    | O => last_traces_first st = -1 ∧ last_traces_last st = -1
    | S _ =>
        last_traces_last st = (Z.of_nat K - 1) mod MAX_LAST_TRACES
        ∧ last_traces_first st
          = (if decide (Z.of_nat K ≤ MAX_LAST_TRACES) then 0
             else Z.of_nat K mod MAX_LAST_TRACES)
    end.

(** A command line, the constants of rohc.h and an [atoi] good for it. *)
Module MainSamples.

Definition small_cid_max : Z := 15.
Definition large_cid_max : Z := 65535.

Definition atoi (s : string) : Z := if String.eqb s "4" then 4 else 0.

Definition argv : list string :=
  ["rohc_sniffer"; "--verbose"; "--max-contexts"; "4"; "smallcid"; "eth0"].

End MainSamples.

(** ** The texts read back *)

(** Spec side: what a reader of the standard error finds in the texts the
    sniffer writes there.  A number is read as [scanf] would with the
    conversion d: an optional minus sign, then digits as long as there
    are digits. *)
Module SpecText.

Definition digit_of (c : ascii) : option N :=
  let n := N_of_ascii c in
  if ((48 <=? n) && (n <=? 57))%N then Some (n - 48)%N else None.

Fixpoint read_digits (acc : N) (s : string) : N * string :=
  match s with
  | EmptyString => (acc, s)
  | String c s' =>
      match digit_of c with
      | Some d => read_digits (acc * 10 + d) s'
      | None => (acc, s)
      end
  end.

(** At least one digit. *)
Definition read_unsigned (s : string) : option (N * string) :=
  match s with
  | EmptyString => None
  | String c _ =>
      match digit_of c with
      | Some _ => Some (read_digits 0 s)
      | None => None
      end
  end.

Definition read_decimal (s : string) : option (Z * string) :=
  match s with
  | EmptyString => None
  | String c s' =>
      if Ascii.eqb c "-"
      then '(n, rest) ← read_unsigned s'; Some (- Z.of_N n, rest)
      else '(n, rest) ← read_unsigned s; Some (Z.of_N n, rest)
  end.

(** What follows the literal [p] at the head of [s]. *)
Fixpoint strip_prefix (p s : string) : option string :=
  match p with
  | EmptyString => Some s
  | String c p' =>
      match s with
      | EmptyString => None
      | String c' s' => if Ascii.eqb c c' then strip_prefix p' s' else None
      end
  end.

(** The dump of the traces: the count its first line announces, and the
    text after that line. *)
Definition spec_announced_count (dump : string) : option (Z * string) :=
  s ← strip_prefix "print the last " dump;
  '(n, s) ← read_decimal s;
  s ← strip_prefix (" traces..." +:+ String nl "") s;
  Some (n, s).

(** The statistics line: the packet number, the CID, and the counters
    in the order their names stand in the line (OK, compression errors,
    decompression errors, mismatches, bad frames, internal errors);
    nothing may follow the newline. *)
Definition spec_stats_fields (line : string) : option (list Z) :=
  s ← strip_prefix "packet #" line;
  '(counter, s) ← read_decimal s;
  s ← strip_prefix ", CID " s;
  '(cid, s) ← read_decimal s;
  s ← strip_prefix (": stats OK, ERR(COMP), ERR(DECOMP), ERR(REF), "
                    +:+ "ERR(BAD), ERR(INTERNAL)" +:+ String "009" "="
                    +:+ String "009" "") s;
  '(nb_ok, s) ← read_decimal s;
  s ← strip_prefix (String "009" "") s;
  '(err_comp, s) ← read_decimal s;
  s ← strip_prefix (String "009" "") s;
  '(err_decomp, s) ← read_decimal s;
  s ← strip_prefix (String "009" "") s;
  '(nb_ref, s) ← read_decimal s;
  s ← strip_prefix (String "009" "") s;
  '(nb_bad, s) ← read_decimal s;
  s ← strip_prefix (String "009" "") s;
  '(nb_internal_err, s) ← read_decimal s;
  if String.eqb s (String nl "")
  then Some [counter; cid; nb_ok; err_comp; err_decomp; nb_ref; nb_bad;
             nb_internal_err]
  else None.

(** A line as the ring buffer may keep it: the line itself when it has
    at most 300 characters and no NUL inside, else a beginning of the
    line of at most 300 characters. *)
Definition spec_kept (line kept : string) : Prop :=
  (String.length kept ≤ 300)%nat
  ∧ (∃ rest : string, line = kept +:+ rest)
  ∧ ((String.length line ≤ 300)%nat
     → (∀ i : nat, String.get i line ≠ Some zero) → kept = line).

End SpecText.

(** * Properties *)

Import SpecText.

#[local] Arguments String.append !_ _ / : simpl nomatch.

(** ** Bytes and byte order *)

Lemma u8_range (b : byte) : 0 ≤ u8 b < 256.
Proof.
  unfold u8. pose proof (Byte.to_N_bounded b). lia.
Qed.

Lemma byte_at_range (buf : list byte) (i : nat) : 0 ≤ byte_at buf i < 256.
Proof. apply u8_range. Qed.

Lemma u8_inj (a b : byte) : u8 a = u8 b → a = b.
Proof.
  unfold u8. intros H. apply N2Z.inj in H.
  pose proof (Byte.of_to_N a) as Ha. pose proof (Byte.of_to_N b) as Hb.
  rewrite H in Ha. congruence.
Qed.

Lemma swap16_bytes (lo hi : Z) :
  0 ≤ lo < 256 → 0 ≤ hi < 256 →
  Z.lor (Z.shiftl (Z.land (lo + 256 * hi) 255) 8)
        (Z.land (Z.shiftr (lo + 256 * hi) 8) 255) = 256 * lo + hi.
Proof.
  intros Hlo Hhi.
  change 255 with (Z.ones 8).
  rewrite !Z.land_ones, Z.shiftr_div_pow2, Z.shiftl_mul_pow2 by lia.
  change (2 ^ 8) with 256.
  replace ((lo + 256 * hi) mod 256) with lo
    by (Z.div_mod_to_equations; lia).
  replace ((lo + 256 * hi) / 256) with hi
    by (Z.div_mod_to_equations; lia).
  rewrite (Z.mod_small hi) by lia.
  pose proof (Z.add_lor_land (lo * 256) hi) as Hadd.
  assert (Z.land (lo * 256) hi = 0) as Hland; [|lia].
  apply Z.bits_inj'. intros n Hn.
  rewrite Z.land_spec, Z.bits_0.
  destruct (decide (n < 8)).
  - change 256 with (2 ^ 8). rewrite Z.mul_pow2_bits_low by lia. done.
  - rewrite (Z.bits_above_log2 hi n), andb_false_r; [done|lia|].
    destruct (decide (hi = 0)) as [->|]; [simpl; lia|].
    apply Z.log2_lt_pow2; [lia|].
    apply Z.lt_le_trans with (2 ^ 8); [simpl; lia|].
    apply Z.pow_le_mono_r; lia.
Qed.

(** Reading a 16-bit field with [memcpy] and [ntohs] gives its value on
    the wire on either host. *)
Lemma ntohs_load_u16 (host : byte_order) (buf : list byte) (off : nat) :
  ntohs host (load_u16 host buf off) = net_u16 buf off.
Proof.
  destruct host; unfold ntohs, load_u16, net_u16; [|done].
  apply swap16_bytes; apply byte_at_range.
Qed.

Lemma net_u16_range (buf : list byte) (off : nat) :
  0 ≤ net_u16 buf off < 65536.
Proof.
  unfold net_u16.
  pose proof (byte_at_range buf off). pose proof (byte_at_range buf (S off)).
  lia.
Qed.

(** ** The RTP detection callback *)

Lemma mod2_even (x : Z) : (x mod 2 =? 0) = Z.even x.
Proof.
  rewrite Zeven_mod. done.
Qed.

Lemma even_add_mul_256 (a b : Z) : Z.even (a + 256 * b) = Z.even a.
Proof.
  rewrite Z.even_add, Z.even_mul. simpl. by destruct (Z.even a).
Qed.

Lemma even_mul_256_add (a b : Z) : Z.even (256 * a + b) = Z.even b.
Proof.
  rewrite Z.even_add, Z.even_mul. simpl. by destruct (Z.even b).
Qed.

(** The parity the callback tests: of the port on a big-endian host, of
    the high byte of the port on a little-endian one. *)
Lemma dport_parity_test (host : byte_order) (udp : list byte) :
  (load_u16 host udp 2 mod 2 =? 0) =
  match host with
  | BigEndian => Z.even (udp_dport udp)
  | LittleEndian => Z.even (byte_at udp 2)
  end.
Proof.
  rewrite mod2_even. destruct host; unfold load_u16, udp_dport, net_u16.
  - apply even_add_mul_256.
  - done.
Qed.

Lemma version_bits (p : Z) :
  0 ≤ p < 256 → (Z.land (Z.shiftr p 6) 3 =? 2) = (p / 64 =? 2).
Proof.
  intros Hp. change 3 with (Z.ones 2).
  rewrite Z.land_ones, Z.shiftr_div_pow2 by lia.
  change (2 ^ 6) with 64. change (2 ^ 2) with 4.
  rewrite Z.mod_small; [done|].
  split; [apply Z.div_pos; lia|apply Z.div_lt_upper_bound; lia].
Qed.

Lemma payload_type_bits (p : Z) : Z.land p 127 = p mod 128.
Proof.
  change 127 with (Z.ones 7). by rewrite Z.land_ones by lia.
Qed.

Lemma pt_allowed_chain (pt : Z) :
  negb (pt =? 3) && negb (pt =? 4) && negb (pt =? 18) && negb (pt =? 101)
  = negb (pt_allowed pt).
Proof.
  unfold pt_allowed, rtp_payload_types.
  case_bool_decide as H; rewrite !elem_of_cons, elem_of_nil in H.
  - destruct H as [->|[->|[->|[->|[]]]]]; done.
  - assert (pt ≠ 3 ∧ pt ≠ 4 ∧ pt ≠ 18 ∧ pt ≠ 101) as (?&?&?&?) by tauto.
    rewrite !(proj2 (Z.eqb_neq _ _)) by done. done.
Qed.

(** The callback as a conjunction of its six rules, with the parity test
    as the host performs it. *)
Lemma rtp_detect_cb_rules (host : byte_order) (ip udp payload : list byte)
    (payload_size : Z) :
  rtp_detect_cb host ip udp payload payload_size =
  negb ((udp_sport udp =? sip_port) && (udp_dport udp =? sip_port))
  && (load_u16 host udp 2 mod 2 =? 0)
  && (udp_length udp <=? 200)
  && (12 <=? payload_size)
  && (byte_at payload 0 / 64 =? 2)
  && pt_allowed (byte_at payload 1 mod 128).
Proof.
  unfold rtp_detect_cb.
  rewrite !ntohs_load_u16, pt_allowed_chain, payload_type_bits.
  rewrite version_bits by apply byte_at_range.
  fold (udp_sport udp) (udp_dport udp) (udp_length udp).
  rewrite Z.gtb_ltb, (Z.ltb_antisym _ 200), (Z.ltb_antisym 12).
  destruct (_ && _), (_ mod 2 =? 0), (udp_length udp <=? 200),
    (12 <=? payload_size), (_ / 64 =? 2), (pt_allowed _); done.
Qed.

(** On a big-endian host an odd destination port is never RTP. *)
Lemma rtp_odd_dport_big_endian (ip udp payload : list byte)
    (payload_size : Z) :
  Z.odd (udp_dport udp) = true →
  rtp_detect_cb BigEndian ip udp payload payload_size = false.
Proof.
  intros Hodd. rewrite rtp_detect_cb_rules, dport_parity_test.
  rewrite <- Z.negb_odd, Hodd. simpl. by rewrite andb_false_r.
Qed.

(** C1, on a little-endian host: the datagram to port 4097, an odd port
    whose high byte 0x10 is even, passes the parity test, which reads the
    port without [ntohs], and is classified as RTP. *)
Theorem rtp_odd_dport_little_endian :
  Z.odd (udp_dport Samples.udp_to_4097) = true
  ∧ udp_sport Samples.udp_to_4097 ≠ sip_port
  ∧ rtp_detect_cb LittleEndian [] Samples.udp_to_4097
      Samples.rtp_payload_20 20 = true.
Proof. by vm_compute. Qed.

(** C2 as stated fails: a datagram of 196 bytes of payload to the even
    port 4096 meets every rule as stated, its payload being no longer
    than 200 bytes, and is not RTP on either host, its UDP length being
    204. *)
Lemma rtp_payload_length_rule_counterexample :
  Z.of_nat (length Samples.rtp_payload_196) = 196
  ∧ udp_length Samples.udp_196_to_4096 = 8 + 196
  ∧ spec_looks_like_rtp Samples.udp_196_to_4096 Samples.rtp_payload_196 196
    = true
  ∧ rtp_detect_cb BigEndian [] Samples.udp_196_to_4096
      Samples.rtp_payload_196 196 = false
  ∧ rtp_detect_cb LittleEndian [] Samples.udp_196_to_4096
      Samples.rtp_payload_196 196 = false.
Proof. by vm_compute. Qed.

(** C2, amended: where the destination port is read with the parity it
    has on the wire, the callback returns true exactly when the ports are
    not both 5060, the destination port is even, the UDP length field is
    at most 200, the payload has at least 12 bytes, the top two bits of
    its first byte are binary 10 and the low seven bits of its second
    byte are an accepted payload type. *)
Theorem rtp_detect_cb_decision_rule (host : byte_order)
    (ip udp payload : list byte) (payload_size : Z) :
  dport_parity_preserved host udp →
  rtp_detect_cb host ip udp payload payload_size
  = looks_like_rtp udp payload payload_size.
Proof.
  intros Hpar. rewrite rtp_detect_cb_rules, dport_parity_test.
  unfold looks_like_rtp. do 4 f_equal.
  destruct Hpar as [->|Hpar]; [done|]. destruct host; [|done].
  unfold udp_dport, net_u16. rewrite even_mul_256_add.
  by rewrite <- !Z.negb_odd, Hpar.
Qed.

Lemma rtp_detect_cb_decision_rule_witness :
  dport_parity_preserved LittleEndian Samples.udp_to_4096
  ∧ rtp_detect_cb LittleEndian [] Samples.udp_to_4096
      Samples.rtp_payload_20 20
    = looks_like_rtp Samples.udp_to_4096 Samples.rtp_payload_20 20.
Proof.
  split.
  - right. reflexivity.
  - apply (rtp_detect_cb_decision_rule LittleEndian [] Samples.udp_to_4096
             Samples.rtp_payload_20 20).
    right. reflexivity.
Defined.

(** C3 as stated fails: the datagram to port 5061 is not RTP, on either
    host. *)
Lemma rtp_port_5061_counterexample :
  rtp_detect_cb BigEndian [] Samples.udp_to_5061 Samples.rtp_payload_20 20
  ≠ true
  ∧ rtp_detect_cb LittleEndian [] Samples.udp_to_5061
      Samples.rtp_payload_20 20 ≠ true.
Proof. by vm_compute. Qed.

(** C3, amended: a UDP packet with 20 bytes of payload that open with
    0x80 and 0x03 is not RTP when its destination port is 5061, nor when
    its source and destination ports are both 5060, nor when its
    destination port is 5063. *)
Theorem rtp_port_examples (host : byte_order) (ip rest : list byte)
    (sport ulen cksum : Z) :
  let payload := x80 :: x03 :: rest in
  rtp_detect_cb host ip (udp_header sport 5061 ulen cksum) payload 20 = false
  ∧ rtp_detect_cb host ip (udp_header 5060 5060 ulen cksum) payload 20
    = false
  ∧ rtp_detect_cb host ip (udp_header sport 5063 ulen cksum) payload 20
    = false.
Proof.
  intros payload. rewrite !rtp_detect_cb_rules.
  split_and!.
  - replace (load_u16 host (udp_header sport 5061 ulen cksum) 2 mod 2 =? 0)
      with false by (by destruct host).
    by rewrite andb_false_r.
  - replace (udp_sport (udp_header 5060 5060 ulen cksum) =? sip_port)
      with true by done.
    replace (udp_dport (udp_header 5060 5060 ulen cksum) =? sip_port)
      with true by done.
    done.
  - replace (load_u16 host (udp_header sport 5063 ulen cksum) 2 mod 2 =? 0)
      with false by (by destruct host).
    by rewrite andb_false_r.
Qed.

(** The same packet to the even port 4096 is RTP on either host. *)
Example rtp_port_4096 (host : byte_order) :
  rtp_detect_cb host [] Samples.udp_to_4096 Samples.rtp_payload_20 20 = true.
Proof. by destruct host. Qed.

(** ** Text *)

Lemma append_assoc (a b c : string) : (a +:+ b) +:+ c = a +:+ (b +:+ c).
Proof. induction a as [|x a IH]; simpl; [done|by rewrite IH]. Qed.

Lemma append_empty_r (a : string) : a +:+ "" = a.
Proof. induction a as [|x a IH]; simpl; [done|by rewrite IH]. Qed.

Lemma no_nl_app (a b : string) : no_nl (a +:+ b) = no_nl a && no_nl b.
Proof.
  induction a as [|x a IH]; simpl; [done|].
  rewrite IH. by destruct (Ascii.eqb x nl).
Qed.

Lemma split_lines_line (l rest : string) :
  no_nl l = true → split_lines (l +:+ String nl rest) = l :: split_lines rest.
Proof.
  induction l as [|x l IH]; simpl; [done|].
  destruct (Ascii.eqb x nl); simpl; [done|].
  intros Hl. by rewrite IH.
Qed.

Lemma unlines_cons (l : string) (ls : list string) :
  unlines (l :: ls) = l +:+ String nl (unlines ls).
Proof. done. Qed.

Lemma split_lines_unlines (ls : list string) (rest : string) :
  Forall (λ l, no_nl l = true) ls →
  split_lines (unlines ls +:+ rest) = (ls ++ split_lines rest)%list.
Proof.
  induction 1 as [|l ls Hl _ IH]; [done|].
  rewrite unlines_cons, append_assoc. change (String nl ?a +:+ ?b)
    with (String nl (a +:+ b)).
  by rewrite split_lines_line, IH.
Qed.

Lemma unlines_app (a b : list string) :
  unlines (a ++ b)%list = unlines a +:+ unlines b.
Proof.
  induction a as [|l a IH]; [done|].
  rewrite <- app_comm_cons, !unlines_cons, IH, append_assoc. done.
Qed.

Lemma hex_digit_no_nl (x : Z) : Ascii.eqb (hex_digit x) nl = false.
Proof. unfold hex_digit. by repeat case_match. Qed.

Lemma no_nl_pretty_N_go (x : N) (s : string) :
  no_nl s = true → no_nl (pretty_N_go x s) = true.
Proof.
  revert s. induction (N.lt_wf_0 x) as [x _ IH]. intros s Hs.
  destruct (decide (x = 0)%N) as [->|Hx]; [done|].
  rewrite pretty_N_go_step by lia.
  apply IH; [apply N.div_lt; lia|].
  simpl. rewrite Hs. unfold pretty_N_char. by repeat case_match.
Qed.

Lemma no_nl_pretty_N (x : N) : no_nl (pretty x) = true.
Proof.
  unfold pretty, pretty_N. case_decide; [done|].
  by apply no_nl_pretty_N_go.
Qed.

Lemma no_nl_fmt_d (z : Z) : no_nl (fmt_d z) = true.
Proof.
  unfold fmt_d, pretty, pretty_Z. destruct z as [|p|p]; [done|..].
  - apply no_nl_pretty_N.
  - unfold pretty, pretty_positive. simpl.
    apply (no_nl_pretty_N (N.pos p)).
Qed.

(** ** The texts read back *)

Lemma digit_of_pretty_N_char (d : N) :
  (d < 10)%N → digit_of (pretty_N_char d) = Some d.
Proof.
  intros Hd.
  assert (d = 0 ∨ d = 1 ∨ d = 2 ∨ d = 3 ∨ d = 4 ∨ d = 5 ∨ d = 6 ∨ d = 7
          ∨ d = 8 ∨ d = 9)%N as Hcases by lia.
  repeat destruct Hcases as [->|Hcases]; try reflexivity.
  by subst.
Qed.

Lemma pretty_N_go_app (x : N) (s t : string) :
  pretty_N_go x s +:+ t = pretty_N_go x (s +:+ t).
Proof.
  revert s. induction (N.lt_wf_0 x) as [x _ IH]. intros s.
  destruct (decide (x = 0)%N) as [->|Hx]; [by rewrite !pretty_N_go_0|].
  rewrite (pretty_N_go_step x s), (pretty_N_go_step x (s +:+ t)) by lia.
  rewrite IH by (apply N.div_lt; lia). done.
Qed.

(** Reading the digits [pretty_N_go] has put before [s]. *)
Lemma read_digits_pretty_N_go (x : N) :
  ∃ k : N, ∀ (acc : N) (s : string),
    read_digits acc (pretty_N_go x s) = read_digits (acc * 10 ^ k + x) s.
Proof.
  induction (N.lt_wf_0 x) as [x _ IH].
  destruct (decide (x = 0)%N) as [->|Hx].
  { exists 0%N. intros acc s. rewrite pretty_N_go_0. f_equal. lia. }
  destruct (IH (x `div` 10)%N) as [k Hk]; [apply N.div_lt; lia|].
  exists (k + 1)%N. intros acc s.
  rewrite pretty_N_go_step, Hk by lia. cbn [read_digits].
  rewrite digit_of_pretty_N_char by (apply N.mod_lt; lia).
  f_equal. rewrite N.pow_add_r, N.pow_1_r.
  pose proof (N.div_mod x 10 ltac:(lia)) as Hdm.
  generalize dependent (x `div` 10)%N. generalize (x `mod` 10)%N.
  generalize (10 ^ k)%N. intros. rewrite Hdm. ring.
Qed.

(** The text of a positive number starts with a digit. *)
Lemma pretty_N_go_head (x : N) (s : string) :
  (0 < x)%N →
  ∃ (c : ascii) (s' : string),
    pretty_N_go x s = String c s' ∧ is_Some (digit_of c).
Proof.
  revert s. induction (N.lt_wf_0 x) as [x _ IH]. intros s Hx.
  rewrite pretty_N_go_step by lia.
  destruct (decide (x `div` 10 = 0)%N) as [Hz|Hz].
  - rewrite Hz, pretty_N_go_0. eexists _, _. split; [done|].
    rewrite digit_of_pretty_N_char by (apply N.mod_lt; lia). done.
  - apply IH; [apply N.div_lt; lia|by apply N.neq_0_lt_0].
Qed.

Lemma read_unsigned_pretty_N (x : N) (c : ascii) (rest : string) :
  digit_of c = None →
  read_unsigned (pretty x +:+ String c rest) = Some (x, String c rest).
Proof.
  intros Hc. unfold pretty, pretty_N. case_decide as Hx.
  - subst x. cbn. by rewrite Hc.
  - rewrite pretty_N_go_app. cbn [String.append].
    destruct (pretty_N_go_head x (String c rest)) as (c' & s' & He & [d Hd]);
      [lia|].
    unfold read_unsigned. rewrite He, Hd, <- He.
    destruct (read_digits_pretty_N_go x) as [k Hk]. rewrite Hk.
    cbn [read_digits]. by rewrite Hc.
Qed.

Lemma pretty_N_pos_head (p : positive) :
  ∃ (c : ascii) (s' : string),
    pretty (N.pos p) = String c s' ∧ is_Some (digit_of c).
Proof.
  unfold pretty, pretty_N. rewrite decide_False by done.
  apply pretty_N_go_head. lia.
Qed.

(** The conversion d read back: what was written, and the text after it
    when that text does not start with a digit. *)
Lemma read_decimal_fmt_d (z : Z) (c : ascii) (rest : string) :
  digit_of c = None →
  read_decimal (fmt_d z +:+ String c rest) = Some (z, String c rest).
Proof.
  intros Hc. unfold fmt_d. destruct z as [|p|p].
  - cbn. by rewrite Hc.
  - change (pretty (Z.pos p)) with (pretty (N.pos p)).
    pose proof (read_unsigned_pretty_N (N.pos p) c rest Hc) as Hr.
    destruct (pretty_N_pos_head p) as (c' & s' & He & [d Hd]).
    rewrite He in *. cbn [String.append] in *. unfold read_decimal.
    assert (Ascii.eqb c' "-" = false) as ->.
    { destruct (Ascii.eqb_spec c' "-") as [->|]; [|done]. by vm_compute in Hd. }
    rewrite Hr. done.
  - change (pretty (Z.neg p)) with ("-" +:+ pretty (N.pos p)).
    pose proof (read_unsigned_pretty_N (N.pos p) c rest Hc) as Hr.
    cbn [String.append]. unfold read_decimal.
    change (Ascii.eqb "-" "-") with true. cbn iota.
    rewrite Hr. done.
Qed.

Lemma read_decimal_fmt_d_lit (z : Z) (c : ascii) (lit rest : string) :
  digit_of c = None →
  read_decimal (fmt_d z +:+ (String c lit +:+ rest))
  = Some (z, String c lit +:+ rest).
Proof. intros Hc. by apply (read_decimal_fmt_d z c (lit +:+ rest)). Qed.

Lemma strip_prefix_app (p s : string) : strip_prefix p (p +:+ s) = Some s.
Proof.
  induction p as [|c p IH]; [done|]. cbn. by rewrite Ascii.eqb_refl.
Qed.

(** ** The packet comparator *)

Lemma memcmp_from_same (a : list byte) (n i : nat) : memcmp_from a a i n = 0.
Proof.
  revert i. induction n as [|n IH]; intros i; simpl; [done|].
  by rewrite Z.eqb_refl.
Qed.

Lemma memcmp_from_zero (a b : list byte) (n i : nat) :
  memcmp_from a b i n = 0 →
  ∀ k : nat, (k < n)%nat → byte_at a (i + k) = byte_at b (i + k).
Proof.
  revert i. induction n as [|n IH]; intros i Hz k Hk; [lia|].
  simpl in Hz. destruct (Z.eqb_spec (byte_at a i) (byte_at b i)) as [He|Hne];
    [|lia].
  destruct k as [|k]; [by rewrite Nat.add_0_r|].
  replace (i + S k)%nat with (S i + k)%nat by lia. apply IH; [done|lia].
Qed.

Lemma byte_at_lookup (a : list byte) (k : nat) (x : byte) :
  a !! k = Some x → byte_at a k = u8 x.
Proof.
  intros H. unfold byte_at. by rewrite (list_lookup_total_correct _ _ _ H).
Qed.

Lemma memcmp_zero_eq (a b : list byte) :
  length a = length b → memcmp a b (Z.of_nat (length a)) = 0 → a = b.
Proof.
  intros Hlen Hz. unfold memcmp in Hz. rewrite Nat2Z.id in Hz.
  apply list_eq_same_length with (length a); [done..|].
  intros k x y Hk Hx Hy.
  pose proof (memcmp_from_zero _ _ _ _ Hz k Hk) as He. simpl in He.
  rewrite (byte_at_lookup _ _ _ Hx), (byte_at_lookup _ _ _ Hy) in He.
  by apply u8_inj.
Qed.

Lemma differ_at_lookup (a b : list byte) (k : nat) :
  (k < length a)%nat → (k < length b)%nat →
  differ_at a b k = true ↔ a !! k ≠ b !! k.
Proof.
  intros Ha Hb.
  destruct (lookup_lt_is_Some_2 a k Ha) as [x Hx].
  destruct (lookup_lt_is_Some_2 b k Hb) as [y Hy].
  unfold differ_at.
  rewrite (byte_at_lookup _ _ _ Hx), (byte_at_lookup _ _ _ Hy), Hx, Hy.
  rewrite negb_true_iff, Z.eqb_neq. split.
  - intros Hne [=->]. done.
  - intros Hne He. apply Hne. f_equal. by apply u8_inj.
Qed.

(** The two ways out of an iteration of the dump loop. *)
Lemma dump_loop_row (pkt1 pkt2 : list byte) (m : Z) (n i j : nat)
    (str1 str2 : list string) :
  (3 ≤ j)%nat ∨ m ≤ Z.of_nat i + 1 →
  dump_loop pkt1 pkt2 m (S n) i j str1 str2 =
  let d := differ_at pkt1 pkt2 i in
  let sep2 := if d then "#"%char else "]"%char in
  let str1' := <[j := fmt_cell (opening d) (byte_at pkt1 i) sep2]> str1 in
  let str2' := <[j := fmt_cell (opening d) (byte_at pkt2 i) sep2]> str2 in
  print_row j str1' str2' +:+ dump_loop pkt1 pkt2 m n (S i) 0 str1' str2'.
Proof.
  intros Hc. cbn [dump_loop].
  assert ((3 <=? j)%nat || (m <=? Z.of_nat i + 1) = true) as ->; [|done].
  apply orb_true_iff. destruct Hc; [left; by apply Nat.leb_le|right; lia].
Qed.

Lemma dump_loop_next (pkt1 pkt2 : list byte) (m : Z) (n i j : nat)
    (str1 str2 : list string) :
  (j < 3)%nat → Z.of_nat i + 1 < m →
  dump_loop pkt1 pkt2 m (S n) i j str1 str2 =
  let d := differ_at pkt1 pkt2 i in
  let sep2 := if d then "#"%char else "]"%char in
  let str1' := <[j := fmt_cell (opening d) (byte_at pkt1 i) sep2]> str1 in
  let str2' := <[j := fmt_cell (opening d) (byte_at pkt2 i) sep2]> str2 in
  dump_loop pkt1 pkt2 m n (S i) (S j) str1' str2'.
Proof.
  intros Hj Hm. cbn [dump_loop].
  assert ((3 <=? j)%nat || (m <=? Z.of_nat i + 1) = false) as ->; [|done].
  apply orb_false_iff. split; [by apply Nat.leb_gt|lia].
Qed.

Lemma print_row_last (j : nat) (str1 str2 : list string) :
  print_row j str1 str2 +:+ "" = unlines [row_text j str1 str2].
Proof. by rewrite append_empty_r. Qed.

Lemma print_row_more (j : nat) (str1 str2 rows : list string)
    (rest : string) :
  rest = unlines rows →
  print_row j str1 str2 +:+ rest = unlines (row_text j str1 str2 :: rows).
Proof.
  intros ->. unfold print_row. by rewrite unlines_cons, append_assoc.
Qed.

#[local] Arguments byte_at : simpl never.
#[local] Arguments hex_digit : simpl never.
#[local] Arguments differ_at : simpl never.
#[local] Arguments opening : simpl never.

Ltac case_differ :=
  repeat match goal with
         | |- context [differ_at ?a ?b ?i] => destruct (differ_at a b i)
         end.

Ltac row_shows_by_computation i :=
  unfold row_shows; split_and!;
  [ cbn; by case_differ
  | cbn; rewrite ?hex_digit_no_nl; by case_differ
  | let c := fresh "c" in
    let Hc := fresh "Hc" in
    intros c Hc;
    destruct c as [|[|[|[|c]]]]; [..|lia];
    first [ exfalso; lia
          | cbn; rewrite ?Nat.add_0_r, ?Nat.add_1_r;
            try replace (i + 2)%nat with (S (S i)) by lia;
            try replace (i + 3)%nat with (S (S (S i))) by lia;
            reflexivity ] ].

Lemma dump_loop_rows (pkt1 pkt2 : list byte) (n : nat) :
  ∀ (i : nat) (str1 str2 : list string),
    length str1 = 4%nat → length str2 = 4%nat →
    ∃ rows : list string,
      dump_loop pkt1 pkt2 (Z.of_nat (i + n)) n i 0 str1 str2 = unlines rows
      ∧ rows_show pkt1 pkt2 i n rows.
Proof.
  induction n as [n IH] using lt_wf_ind. intros i str1 str2 H1 H2.
  destruct str1 as [|a1 [|a2 [|a3 [|a4 [|]]]]]; try done.
  destruct str2 as [|b1 [|b2 [|b3 [|b4 [|]]]]]; try done.
  destruct n as [|[|[|[|n]]]].
  - exists []. split; [done|constructor].
  - rewrite dump_loop_row by lia. cbn zeta.
    eexists [_]. split; [apply print_row_last|].
    constructor; [lia| |constructor].
    row_shows_by_computation i.
  - rewrite dump_loop_next by lia. cbn zeta.
    rewrite dump_loop_row by lia. cbn zeta.
    eexists [_]. split; [apply print_row_last|].
    constructor; [lia| |constructor].
    row_shows_by_computation i.
  - do 2 (rewrite dump_loop_next by lia; cbn zeta).
    rewrite dump_loop_row by lia. cbn zeta.
    eexists [_]. split; [apply print_row_last|].
    constructor; [lia| |constructor].
    row_shows_by_computation i.
  - do 3 (rewrite dump_loop_next by lia; cbn zeta).
    rewrite dump_loop_row by lia. cbn zeta.
    replace (i + S (S (S (S n))))%nat with (S (S (S (S i))) + n)%nat by lia.
    match goal with
    | |- context [dump_loop _ _ _ n _ 0 ?s1 ?s2] =>
        destruct (IH n ltac:(lia) (S (S (S (S i)))) s1 s2 eq_refl eq_refl)
          as (rows & Hrows & Hshow)
    end.
    eexists (_ :: rows). split; [by apply print_row_more|].
    constructor; [lia| |].
    + row_shows_by_computation i.
    + replace (i + 4)%nat with (S (S (S (S i)))) by lia.
      by replace (S (S (S (S n))) - 4)%nat with n by lia.
Qed.

Lemma rows_show_lookup (pkt1 pkt2 : list byte) (i n : nat)
    (rows : list string) :
  rows_show pkt1 pkt2 i n rows →
  ∀ k : nat, (k < n)%nat →
    ∃ row : string,
      rows !! (k / 4)%nat = Some row
      ∧ String.get (8 * (k mod 4)) row
        = Some (opening (differ_at pkt1 pkt2 (i + k))).
Proof.
  induction 1 as [|i n row rows Hn Hrow Hrows IH]; intros k Hk; [lia|].
  destruct (decide (k < 4)%nat) as [Hlt|Hge].
  - exists row. rewrite Nat.div_small, Nat.mod_small by done.
    split; [done|]. apply Hrow. lia.
  - destruct (IH (k - 4)%nat ltac:(lia)) as (r & Hr & Hget).
    exists r.
    replace k with ((k - 4) + 1 * 4)%nat at 1 2 by lia.
    rewrite Nat.div_add, Nat.Div0.mod_add by lia.
    replace (i + 4 + (k - 4))%nat with (i + k)%nat in Hget by lia.
    split; [|done]. by rewrite Nat.add_1_r.
Qed.

Lemma rows_show_rows (pkt1 pkt2 : list byte) (i n : nat)
    (rows : list string) :
  rows_show pkt1 pkt2 i n rows →
  Forall (λ l, is_dump_row l = true ∧ no_nl l = true) rows.
Proof.
  induction 1 as [|i n row rows Hn Hrow Hrows IH]; [by constructor|].
  destruct Hrow as (Hrow & Hnl & _). by constructor.
Qed.

Lemma filter_dump_rows (rows : list string) :
  Forall (λ l, is_dump_row l = true ∧ no_nl l = true) rows →
  filter (λ l, is_dump_row l = true) rows = rows.
Proof.
  induction 1 as [|l ls [Hl _] _ IH]; [done|].
  rewrite filter_cons_True by done. by rewrite IH.
Qed.

Lemma no_nl_sizes_text (a b c : Z) : no_nl (sizes_text a b c) = true.
Proof.
  unfold sizes_text. rewrite !no_nl_app, !no_nl_fmt_d. done.
Qed.

(** The rows an operator reads in the output are the rows of the dump. *)
Lemma dump_rows_output (pre : list string) (rows : list string) :
  Forall (λ l, is_dump_row l = false ∧ no_nl l = true) pre →
  Forall (λ l, is_dump_row l = true ∧ no_nl l = true) rows →
  dump_rows (unlines pre +:+ unlines rows
             +:+ banner_different +:+ String nl "") = rows.
Proof.
  intros Hpre Hrows. unfold dump_rows.
  rewrite split_lines_unlines
    by (eapply Forall_impl; [exact Hpre|by intros ? [_ ?]]).
  rewrite split_lines_unlines
    by (eapply Forall_impl; [exact Hrows|by intros ? [_ ?]]).
  rewrite !filter_app, (filter_dump_rows rows Hrows).
  replace (filter _ (split_lines (banner_different +:+ String nl "")))
    with (@nil string) by (by vm_compute).
  replace (filter _ pre) with (@nil string).
  - simpl. by rewrite app_nil_r.
  - symmetry. clear Hrows. induction Hpre as [|l ls [Hl _] _ IH]; [done|].
    rewrite filter_cons_False by (by rewrite Hl). done.
Qed.

Lemma opening_hash (d : bool) : Ascii.eqb (opening d) "#"%char = d.
Proof. by destruct d. Qed.

(** When the packets are not found equal, [compare_packets] returns 0
    and the dump marks, among the bytes it shows, those that differ. *)
Lemma compare_packets_dump (pkt1 pkt2 : list byte) (size1 size2 : Z) :
  0 ≤ size1 → 0 ≤ size2 →
  (size1 =? size2) && (memcmp pkt1 pkt2 size1 =? 0) = false →
  ∃ out : string,
    compare_packets pkt1 size1 pkt2 size2 = (0, out)
    ∧ ∀ k : nat, Z.of_nat k < Z.min 180 (Z.min size1 size2) →
        marked out k = differ_at pkt1 pkt2 k.
Proof.
  intros H1 H2 Hne. unfold compare_packets. rewrite Hne.
  eexists. split; [reflexivity|]. intros k Hk.
  set (m := Z.min 180 (Z.min size1 size2)) in *.
  destruct (dump_loop_rows pkt1 pkt2 (Z.to_nat m) 0
              (replicate 4 "") (replicate 4 "") eq_refl eq_refl)
    as (rows & Hdump & Hshow).
  rewrite Nat.add_0_l, Z2Nat.id in Hdump by lia. rewrite Hdump.
  set (pre := ([banner_compare; banner_columns]
               ++ if negb (size1 =? size2)
                  then [sizes_text size1 size2 m] else [])%list).
  assert (Forall (λ l, is_dump_row l = false ∧ no_nl l = true) pre) as Hpre.
  { unfold pre. apply Forall_app. split; [by repeat constructor|].
    destruct (negb _); repeat constructor. apply no_nl_sizes_text. }
  unfold marked.
  match goal with
  | |- context [dump_rows ?o] =>
      replace o with (unlines pre +:+ unlines rows
                      +:+ banner_different +:+ String nl "")
  end.
  - rewrite (dump_rows_output pre rows Hpre (rows_show_rows _ _ _ _ _ Hshow)).
    destruct (rows_show_lookup _ _ _ _ _ Hshow k ltac:(lia))
      as (row & -> & ->).
    by rewrite opening_hash.
  - unfold pre. rewrite unlines_app, append_assoc.
    destruct (negb _); [|done].
    rewrite !unlines_cons. simpl unlines. by rewrite !append_assoc.
Qed.

Lemma compare_packets_same (P : list byte) :
  compare_packets P (Z.of_nat (length P)) P (Z.of_nat (length P)) = (1, "").
Proof.
  unfold compare_packets, memcmp.
  by rewrite Z.eqb_refl, memcmp_from_same.
Qed.

(** C4 as stated fails: two packets of 181 bytes differ at byte 180,
    which the dump, cut at 180 bytes, does not show, and so does not
    mark. *)
Lemma compare_marks_counterexample :
  Samples.zeros_181 ≠ Samples.zeros_180_one
  ∧ Samples.zeros_181 !! 180%nat ≠ Samples.zeros_180_one !! 180%nat
  ∧ (compare_packets Samples.zeros_181 181 Samples.zeros_180_one 181).1 = 0
  ∧ marked (compare_packets Samples.zeros_181 181
              Samples.zeros_180_one 181).2 180 = false.
Proof.
  split_and!.
  - intros H. apply (f_equal (λ l, l !! 180%nat)) in H. by vm_compute in H.
  - by vm_compute.
  - by vm_compute.
  - by vm_compute.
Qed.

(** C4, amended: [compare_packets (P, P)] returns equal and prints
    nothing; for [P ≠ P'], [compare_packets (P, P')] returns not-equal and
    its output marks exactly the differing bytes among those it shows, the
    first 180 bytes that both packets have. *)
Theorem compare_packets_correct (P P' : list byte) :
  let size := Z.of_nat (length P) in
  let size' := Z.of_nat (length P') in
  compare_packets P size P size = (1, "")
  ∧ (P ≠ P' →
     ∃ out : string,
       compare_packets P size P' size' = (0, out)
       ∧ ∀ k : nat,
           (k < 180)%nat → (k < length P)%nat → (k < length P')%nat →
           marked out k = true ↔ P !! k ≠ P' !! k).
Proof.
  intros size size'. split.
  - apply compare_packets_same.
  - intros Hne.
    destruct (compare_packets_dump P P' size size') as (out & Hout & Hmark);
      [lia..| |].
    + apply andb_false_iff.
      destruct (Z.eqb_spec size size') as [Hs|Hs]; [right|by left].
      apply Z.eqb_neq. intros Hz. apply Hne.
      apply memcmp_zero_eq; [unfold size, size' in Hs; lia|done].
    + exists out. split; [done|]. intros k Hk HP HP'.
      rewrite Hmark by lia. by apply differ_at_lookup.
Qed.

Lemma compare_packets_correct_witness :
  Samples.five_bytes ≠ Samples.five_bytes'
  ∧ ∃ out : string,
      compare_packets Samples.five_bytes 5 Samples.five_bytes' 5 = (0, out)
      ∧ ∀ k : nat,
          (k < 180)%nat → (k < 5)%nat → (k < 5)%nat →
          marked out k = true ↔ Samples.five_bytes !! k ≠ Samples.five_bytes' !! k.
Proof.
  assert (Samples.five_bytes ≠ Samples.five_bytes') as Hne by discriminate.
  split; [exact Hne|].
  exact (proj2 (compare_packets_correct Samples.five_bytes
                  Samples.five_bytes') Hne).
Defined.

(** ** The ring buffer of the last traces *)

Lemma MAX_LAST_TRACES_gt_1 : 1 < MAX_LAST_TRACES.
Proof. done. Qed.

#[local] Opaque MAX_LAST_TRACES.

Lemma lastn_all {A} (n : nat) (l : list A) :
  (length l ≤ n)%nat → lastn n l = l.
Proof.
  intros H. unfold lastn. by replace (length l - n)%nat with 0%nat by lia.
Qed.

Lemma lastn_snoc_full {A} (n : nat) (l : list A) (x : A) :
  length l = n → (0 < n)%nat → lastn n (l ++ [x]) = drop 1 l ++ [x].
Proof.
  intros Hl Hn. unfold lastn. rewrite length_app. simpl.
  replace (length l + 1 - n)%nat with 1%nat by lia.
  rewrite drop_app_le by lia. done.
Qed.

Lemma lastn_snoc_lastn {A} (n : nat) (l : list A) (x : A) :
  (0 < n)%nat → lastn n (lastn n l ++ [x]) = lastn n (l ++ [x]).
Proof.
  intros Hn. destruct (decide (length l ≤ n)%nat) as [Hle|Hgt].
  - by rewrite (lastn_all n l).
  - rewrite lastn_snoc_full; [|unfold lastn; rewrite length_drop; lia|done].
    unfold lastn. rewrite drop_drop, length_app. simpl.
    rewrite drop_app_le by lia. do 2 f_equal. lia.
Qed.

(** The slots a loop of the dump prints, given slot by slot. *)
Lemma fmap_seqZ_slots (buf : list string) (idx : Z → nat) (a n : Z)
    (target : list string) :
  length target = Z.to_nat n →
  (∀ k : nat, Z.of_nat k < n →
     target !! k = Some (buf !!! idx (a + Z.of_nat k))) →
  (λ i, buf !!! idx i) <$> seqZ a n = target.
Proof.
  intros Hlen Hk. apply list_eq_same_length with (Z.to_nat n);
    [done|by rewrite length_fmap, length_seqZ|].
  intros k x y Hkn Hx Hy.
  rewrite list_lookup_fmap, lookup_seqZ_lt in Hx by lia. simpl in Hx.
  rewrite Hk in Hy by lia. congruence.
Qed.

(** The dump of a buffer filled from slot 0 to [last]. *)
Lemma traces_to_print_prefix (buf : list string) (last : Z) :
  length buf = Z.to_nat MAX_LAST_TRACES →
  0 ≤ last < MAX_LAST_TRACES →
  traces_to_print {| last_traces := buf; last_traces_first := 0;
                     last_traces_last := last |}
  = Some (last, take (Z.to_nat (last + 1)) buf).
Proof.
  intros Hlen Hl. unfold traces_to_print. simpl.
  rewrite (proj2 (Z.eqb_neq last (-1))) by lia.
  rewrite (proj2 (Z.leb_le 0 last)) by lia. simpl.
  rewrite Z.sub_0_r. do 2 f_equal.
  apply fmap_seqZ_slots.
  - rewrite length_take_le; lia.
  - intros k Hk. rewrite lookup_take_lt by lia.
    rewrite Z.add_0_l, Nat2Z.id.
    apply list_lookup_lookup_total_lt. lia.
Qed.

(** The dump of a full buffer whose oldest slot is [first]. *)
Lemma traces_to_print_full (buf : list string) (last : Z) :
  length buf = Z.to_nat MAX_LAST_TRACES →
  0 ≤ last < MAX_LAST_TRACES →
  let first := (last + 1) mod MAX_LAST_TRACES in
  traces_to_print {| last_traces := buf; last_traces_first := first;
                     last_traces_last := last |}
  = Some (MAX_LAST_TRACES - 1,
          drop (Z.to_nat first) buf ++ take (Z.to_nat first) buf).
Proof.
  intros Hlen Hl first. pose proof MAX_LAST_TRACES_gt_1 as HN.
  destruct (decide (last = MAX_LAST_TRACES - 1)) as [->|Hne].
  - assert (first = 0) as ->.
    { unfold first. replace (MAX_LAST_TRACES - 1 + 1) with MAX_LAST_TRACES
        by lia. apply Z.mod_same. lia. }
    rewrite traces_to_print_prefix by lia.
    rewrite Z2Nat.inj_0, drop_0, take_0, app_nil_r.
    by rewrite take_ge by lia.
  - assert (first = last + 1) as Hf
      by (unfold first; apply Z.mod_small; lia).
    clearbody first. subst first.
    unfold traces_to_print. simpl.
    rewrite (proj2 (Z.eqb_neq (last + 1) (-1))) by lia.
    rewrite (proj2 (Z.eqb_neq last (-1))) by lia.
    rewrite (proj2 (Z.leb_gt (last + 1) last)) by lia. simpl.
    f_equal. f_equal; [lia|].
    replace (MAX_LAST_TRACES + last - (last + 1) + 1) with MAX_LAST_TRACES
      by lia.
    apply fmap_seqZ_slots.
    + rewrite length_app, length_drop, length_take_le; lia.
    + intros k Hk.
      destruct (decide (Z.of_nat k < MAX_LAST_TRACES - (last + 1))) as [Hlt|Hge].
      * rewrite lookup_app_l by (rewrite length_drop; lia).
        rewrite lookup_drop, Z.mod_small by lia.
        replace (Z.to_nat (last + 1 + Z.of_nat k))
          with (Z.to_nat (last + 1) + k)%nat by lia.
        apply list_lookup_lookup_total_lt. lia.
      * rewrite lookup_app_r by (rewrite length_drop; lia).
        rewrite length_drop, lookup_take_lt by lia.
        replace (last + 1 + Z.of_nat k)
          with ((last + 1 + Z.of_nat k - MAX_LAST_TRACES)
                + 1 * MAX_LAST_TRACES) by lia.
        rewrite Z.mod_add, Z.mod_small by lia.
        replace (Z.to_nat (last + 1 + Z.of_nat k - MAX_LAST_TRACES))
          with (k - (length buf - Z.to_nat (last + 1)))%nat by lia.
        apply list_lookup_lookup_total_lt. lia.
Qed.

Lemma traces_wf_no_traces : traces_wf no_traces.
Proof.
  split; [apply length_replicate|]. by left.
Qed.

Lemma printed_no_traces : printed_traces no_traces = [].
Proof. done. Qed.

(** One more trace: the state stays well formed, and the dump prints the
    line after those it printed before, less the oldest when the buffer
    was full. *)
Lemma record_trace_printed (msg : string) (st : trace_state) :
  traces_wf st →
  traces_wf (record_trace msg st)
  ∧ printed_traces (record_trace msg st)
    = lastn (Z.to_nat MAX_LAST_TRACES) (printed_traces st ++ [stored_trace msg]).
Proof.
  pose proof MAX_LAST_TRACES_gt_1 as HN.
  destruct st as [buf first last]. intros [Hlen Hcases]. simpl in *.
  assert (first = -1 ∧ last = -1
          ∨ (first = 0 ∧ 0 ≤ last < MAX_LAST_TRACES - 1)
          ∨ (0 ≤ last < MAX_LAST_TRACES
             ∧ first = (last + 1) mod MAX_LAST_TRACES))
    as [[-> ->]|[[-> Hl]|[Hl ->]]].
  { destruct Hcases as [?|[[-> Hl]|?]]; [by left| |by right; right].
    destruct (decide (last = MAX_LAST_TRACES - 1)) as [->|?].
    - right; right. split; [lia|].
      replace (MAX_LAST_TRACES - 1 + 1) with MAX_LAST_TRACES by lia.
      by rewrite Z.mod_same by lia.
    - right; left. lia. }
  - (* the first trace *)
    unfold record_trace, traces_wf.
    cbn [last_traces last_traces_first last_traces_last].
    rewrite Z.eqb_refl. split.
    + split; [by rewrite length_insert|]. right; left. lia.
    + unfold printed_traces at 1.
      rewrite traces_to_print_prefix by (rewrite ?length_insert; lia).
      destruct buf as [|s0 buf]; [simpl in Hlen; lia|].
      rewrite lastn_all by (simpl; lia). done.
  - (* room left *)
    unfold record_trace, traces_wf.
    cbn [last_traces last_traces_first last_traces_last].
    rewrite (proj2 (Z.eqb_neq last (-1))) by lia.
    rewrite (Z.mod_small (last + 1)) by lia.
    rewrite (proj2 (Z.eqb_neq 0 (last + 1))) by lia.
    change (0 =? -1) with false. cbn iota.
    split.
    + split; [by rewrite length_insert|]. right; left. lia.
    + unfold printed_traces.
      rewrite !traces_to_print_prefix by (rewrite ?length_insert; lia).
      replace (Z.to_nat (last + 1 + 1)) with (S (Z.to_nat (last + 1))) by lia.
      rewrite (take_S_r _ _ (stored_trace msg))
        by (apply list_lookup_insert_eq; lia).
      rewrite take_insert_ge by lia.
      rewrite lastn_all; [done|].
      rewrite length_app, length_take_le by lia. simpl. lia.
  - (* full: the oldest slot is written *)
    set (f := (last + 1) mod MAX_LAST_TRACES).
    assert (0 ≤ f < MAX_LAST_TRACES) as Hf by (apply Z.mod_pos_bound; lia).
    unfold record_trace, traces_wf.
    cbn [last_traces last_traces_first last_traces_last]. fold f.
    rewrite (proj2 (Z.eqb_neq last (-1))) by lia.
    rewrite (proj2 (Z.eqb_neq f (-1))) by lia.
    rewrite Z.eqb_refl.
    split.
    + split; [by rewrite length_insert|]. right; right. done.
    + unfold printed_traces.
      rewrite (traces_to_print_full (<[Z.to_nat f:=_]> buf) f)
        by (rewrite ?length_insert; lia).
      pose proof (traces_to_print_full buf last Hlen Hl) as Hold.
      cbn zeta in Hold. fold f in Hold. rewrite Hold.
      rewrite lastn_snoc_full;
        [|rewrite length_app, length_drop, length_take_le; lia|lia].
      rewrite drop_app_le by (rewrite length_drop; lia).
      rewrite drop_drop, <- app_assoc.
      destruct (decide (f = MAX_LAST_TRACES - 1)) as [Hlast|Hmore].
      * replace ((f + 1) mod MAX_LAST_TRACES) with 0
          by (rewrite Hlast;
              replace (MAX_LAST_TRACES - 1 + 1) with MAX_LAST_TRACES by lia;
              by rewrite Z.mod_same by lia).
        rewrite Z2Nat.inj_0, drop_0, take_0, app_nil_r.
        rewrite (drop_ge buf) by lia. simpl.
        rewrite <- (take_ge (<[_:=_]> buf) (S (Z.to_nat f)))
          by (rewrite length_insert; lia).
        rewrite (take_S_r _ _ (stored_trace msg))
          by (apply list_lookup_insert_eq; lia).
        by rewrite take_insert_ge by lia.
      * rewrite (Z.mod_small (f + 1)) by lia.
        replace (Z.to_nat (f + 1)) with (S (Z.to_nat f)) by lia.
        rewrite drop_insert_lt by lia.
        rewrite (take_S_r _ _ (stored_trace msg))
          by (apply list_lookup_insert_eq; lia).
        rewrite take_insert_ge by lia.
        by replace (Z.to_nat f + 1)%nat with (S (Z.to_nat f)) by lia.
Qed.

Lemma trace_calls_snoc (is_verbose : bool)
    (calls : list (rohc_trace_level_t * string))
    (call : rohc_trace_level_t * string) (st : trace_state) :
  (trace_calls is_verbose (calls ++ [call]) st).2
  = record_trace call.2 (trace_calls is_verbose calls st).2.
Proof.
  unfold trace_calls. by rewrite foldl_app.
Qed.

Lemma length_lastn {A} (n : nat) (l : list A) :
  length (lastn n l) = (n `min` length l)%nat.
Proof. unfold lastn. rewrite length_drop. lia. Qed.

(** After any run of calls the state is well formed and the dump prints
    the last [MAX_LAST_TRACES] lines recorded. *)
Lemma trace_calls_printed (is_verbose : bool)
    (calls : list (rohc_trace_level_t * string)) :
  let st := (trace_calls is_verbose calls no_traces).2 in
  traces_wf st
  ∧ printed_traces st
    = lastn (Z.to_nat MAX_LAST_TRACES) (stored_trace <$> calls.*2).
Proof.
  pose proof MAX_LAST_TRACES_gt_1 as HN.
  induction calls as [|call calls [IHwf IH]] using rev_ind.
  - split; [apply traces_wf_no_traces|done].
  - cbn zeta in *. rewrite trace_calls_snoc.
    destruct (record_trace_printed call.2 _ IHwf) as [Hwf Hp].
    split; [done|].
    rewrite Hp, IH, lastn_snoc_lastn by lia.
    by rewrite !fmap_app.
Qed.

(** The count the first line announces is one less than the number of
    lines the dump prints. *)
Lemma traces_to_print_count (st : trace_state) (n : Z) (ls : list string) :
  traces_wf st → traces_to_print st = Some (n, ls) →
  0 ≤ n ∧ n = Z.of_nat (length ls) - 1.
Proof.
  pose proof MAX_LAST_TRACES_gt_1 as HN.
  destruct st as [buf first last]. intros [Hlen Hcases]. simpl in *.
  destruct Hcases as [[-> ->]|[[-> Hl]|[Hl ->]]].
  - done.
  - rewrite traces_to_print_prefix by done. intros [= <- <-].
    rewrite length_take_le; lia.
  - rewrite traces_to_print_full by done. intros [= <- <-].
    assert (0 ≤ (last + 1) mod MAX_LAST_TRACES < MAX_LAST_TRACES)
      by (apply Z.mod_pos_bound; lia).
    rewrite length_app, length_drop, length_take_le; lia.
Qed.

(** The lines and the text of the dump after a run of calls. *)
Lemma dump_after_calls (is_verbose : bool)
    (calls : list (rohc_trace_level_t * string)) :
  let st := (trace_calls is_verbose calls no_traces).2 in
  let K := length calls in
  let held := (K `min` Z.to_nat MAX_LAST_TRACES)%nat in
  printed_traces st = stored_trace <$> lastn held (calls.*2)
  ∧ (print_last_traces st).1
    = (if decide (K = 0%nat) then no_trace_text
       else traces_header (Z.of_nat held - 1)
            +:+ String.concat "" (printed_traces st)).
Proof.
  intros st K held. pose proof MAX_LAST_TRACES_gt_1 as HN.
  destruct (trace_calls_printed is_verbose calls) as [Hwf Hp].
  fold st in Hwf, Hp.
  assert (printed_traces st = stored_trace <$> lastn held (calls.*2))
    as Hprinted.
  { rewrite Hp. unfold lastn. rewrite <- !fmap_drop, !length_fmap.
    do 3 f_equal. unfold held, K. lia. }
  split; [done|].
  unfold print_last_traces.
  pose proof (f_equal length Hprinted) as Hlen.
  rewrite length_fmap, length_lastn, length_fmap in Hlen.
  fold K in Hlen. unfold printed_traces in *.
  destruct (traces_to_print st) as [[n ls]|] eqn:Hst; cbn [fst snd] in *.
  - destruct (traces_to_print_count st n ls Hwf Hst) as [Hn ->].
    case_decide; [lia|].
    by replace (Z.of_nat held - 1) with (Z.of_nat (length ls) - 1)
      by (unfold held; lia).
  - simpl in Hlen. case_decide; [done|unfold held in Hlen; lia].
Qed.

Lemma substring_0_length (n : nat) (s : string) :
  (String.length (String.substring 0 n s) ≤ n)%nat.
Proof.
  revert s. induction n as [|n IH]; intros [|c s]; cbn; try lia.
  specialize (IH s). lia.
Qed.

Lemma substring_0_all (n : nat) (s : string) :
  (String.length s ≤ n)%nat → String.substring 0 n s = s.
Proof.
  revert s. induction n as [|n IH]; intros [|c s]; cbn; intros Hl;
    try done; try lia.
  rewrite IH; [done|lia].
Qed.

Lemma substring_0_prefix (n : nat) (s : string) :
  ∃ rest : string, s = String.substring 0 n s +:+ rest.
Proof.
  revert s. induction n as [|n IH]; intros [|c s]; cbn.
  - by exists "".
  - by exists (String c s).
  - by exists "".
  - destruct (IH s) as [rest Hr]. exists rest. by rewrite <- Hr.
Qed.

Lemma c_str_length (s : string) :
  (String.length (c_str s) ≤ String.length s)%nat.
Proof.
  induction s as [|c s IH]; cbn; [lia|].
  destruct (Ascii.eqb c zero); cbn; lia.
Qed.

Lemma c_str_prefix (s : string) : ∃ rest : string, s = c_str s +:+ rest.
Proof.
  induction s as [|c s [rest Hr]]; cbn.
  - by exists "".
  - destruct (Ascii.eqb c zero); cbn.
    + by exists (String c s).
    + exists rest. by rewrite <- Hr.
Qed.


(** The header line of the dump, read back. *)
Lemma announced_count_header (n : Z) (lines : string) :
  spec_announced_count (traces_header n +:+ lines) = Some (n, lines).
Proof.
  unfold spec_announced_count, traces_header.
  rewrite !append_assoc, strip_prefix_app. cbn [mbind option_bind].
  rewrite read_decimal_fmt_d_lit by done. cbn [mbind option_bind].
  by rewrite <- append_assoc, strip_prefix_app.
Qed.

Lemma c_str_no_nul (s : string) :
  (∀ i : nat, String.get i s ≠ Some zero) → c_str s = s.
Proof.
  induction s as [|c s IH]; [done|]. intros Hget. cbn.
  destruct (Ascii.eqb_spec c zero) as [->|Hc].
  - by destruct (Hget 0%nat).
  - f_equal. apply IH. intros i. apply (Hget (S i)).
Qed.

(** What a slot holds of a line is the line as the buffer may keep
    it. *)
Lemma stored_trace_kept (msg : string) : spec_kept msg (stored_trace msg).
Proof.
  unfold spec_kept, stored_trace. split_and!.
  - pose proof (c_str_length (String.substring 0 MAX_TRACE_LEN msg)).
    pose proof (substring_0_length MAX_TRACE_LEN msg).
    unfold MAX_TRACE_LEN in *. lia.
  - destruct (substring_0_prefix MAX_TRACE_LEN msg) as [r1 H1].
    destruct (c_str_prefix (String.substring 0 MAX_TRACE_LEN msg))
      as [r2 H2].
    exists (r2 +:+ r1). by rewrite <- append_assoc, <- H2, <- H1.
  - intros Hlen Hnul. rewrite substring_0_all by done.
    by apply c_str_no_nul.
Qed.

Lemma Forall2_stored_trace_kept (lines : list string) :
  Forall2 spec_kept lines (stored_trace <$> lines).
Proof.
  induction lines as [|l lines IH]; constructor; [apply stored_trace_kept|done].
Qed.





(** C10: whenever the dump runs on a buffer that holds a trace, the
    count its first line announces is one less than the number of trace
    lines it prints after that line. *)
Theorem traces_header_one_less (is_verbose : bool)
    (call : rohc_trace_level_t * string)
    (calls : list (rohc_trace_level_t * string)) :
  let st := (trace_calls is_verbose (call :: calls) no_traces).2 in
  ∃ (n : Z) (ls : list string),
    traces_to_print st = Some (n, ls)
    ∧ (print_last_traces st).1 = traces_header n +:+ String.concat "" ls
    ∧ spec_announced_count (print_last_traces st).1
      = Some (n, String.concat "" ls)
    ∧ n = Z.of_nat (length ls) - 1
    ∧ length ls = (S (length calls) `min` Z.to_nat MAX_LAST_TRACES)%nat.
Proof.
  intros st. pose proof MAX_LAST_TRACES_gt_1 as HN.
  destruct (trace_calls_printed is_verbose (call :: calls)) as [Hwf Hp].
  fold st in Hwf, Hp.
  pose proof (f_equal length Hp) as Hlen.
  rewrite length_lastn, !length_fmap in Hlen. cbn [length] in Hlen.
  unfold print_last_traces, printed_traces in *.
  destruct (traces_to_print st) as [[n ls]|] eqn:Hst; [|simpl in Hlen; lia].
  exists n, ls. cbn [fst]. split_and!; [done..| | |].
  - apply announced_count_header.
  - by apply (traces_to_print_count st).
  - lia.
Qed.

(** ** The pipeline *)

Lemma to_u32_link_len (l : link_layer) : to_u32 (link_len_of l) = link_len_of l.
Proof. by destruct l. Qed.

Lemma to_int_small (x : Z) : 0 ≤ x ≤ DEV_MTU → to_int x = x.
Proof.
  unfold DEV_MTU, to_int. intros Hx.
  change (2 ^ 31) with 2147483648. change (2 ^ 32) with 4294967296.
  rewrite Z.mod_small; lia.
Qed.

(** The total length the padding check computes, on either host: the
    total-length field for version 4, else 40 bytes plus the
    payload-length field of an IPv6 header. *)
Lemma ip_tot_len_fields (host : byte_order) (ip_packet : list byte) :
  ip_tot_len host ip_packet
  = if decide (ip_version ip_packet = 4) then net_u16 ip_packet 2
    else 40 + net_u16 ip_packet 4.
Proof.
  unfold ip_tot_len. rewrite !ntohs_load_u16.
  case_decide as Hv.
  - by rewrite Hv.
  - by rewrite (proj2 (Z.eqb_neq _ _) Hv).
Qed.

(** C6: a frame whose length on the wire is at most the length of the
    link-layer header, or differs from the length captured, makes the
    pipeline write one line to the standard error and return -3: no call
    into the ROHC library, the table of dumpers as it was. *)
Theorem malformed_capture_rejected (host : byte_order) (l : link_layer)
    (header : pcap_pkthdr) (packet : list byte)
    (dumpers : list (option dumper)) (cid : Z) (g : globals) :
  len header ≤ link_len_of l ∨ len header ≠ caplen header →
  compress_decompress host header packet (link_len_of l) dumpers cid g
  = Vis (EvStderr (bad_pcap_text header))
      (λ _, Ret {| ret := -3; dumpers_out := dumpers; cid_out := cid;
                   globals_out := g |})
  ∧ first_compress
      (compress_decompress host header packet (link_len_of l) dumpers cid g)
    = None.
Proof.
  intros Hbad. unfold compress_decompress. rewrite to_u32_link_len.
  assert ((len header <=? link_len_of l) || negb (len header =? caplen header)
          = true) as ->; [|done].
  apply orb_true_iff. destruct Hbad as [Hle|Hne].
  - left. by apply Z.leb_le.
  - right. apply negb_true_iff. by apply Z.eqb_neq.
Qed.

Lemma malformed_capture_rejected_witness :
  (len FrameSamples.header_cut ≤ link_len_of DLT_EN10MB
   ∨ len FrameSamples.header_cut ≠ caplen FrameSamples.header_cut)
  ∧ first_compress
      (compress_decompress LittleEndian FrameSamples.header_cut
         (take 40 FrameSamples.ether_60) (link_len_of DLT_EN10MB)
         [None; None] 0 FrameSamples.quiet)
    = None.
Proof.
  assert (len FrameSamples.header_cut ≤ link_len_of DLT_EN10MB
          ∨ len FrameSamples.header_cut ≠ caplen FrameSamples.header_cut)
    as Hbad by (right; discriminate).
  split; [exact Hbad|].
  exact (proj2 (malformed_capture_rejected LittleEndian DLT_EN10MB
                  FrameSamples.header_cut (take 40 FrameSamples.ether_60)
                  [None; None] 0 FrameSamples.quiet Hbad)).
Defined.

(** What the pipeline hands to [rohc_compress] for a frame that passes
    the checks of its length. *)
Lemma compress_argument (host : byte_order) (l : link_layer)
    (header : pcap_pkthdr) (packet : list byte)
    (dumpers : list (option dumper)) (cid : Z) (g : globals) :
  captured header packet →
  link_len_of l < len header → len header = caplen header →
  let stripped := drop (Z.to_nat (link_len_of l)) packet in
  let ip_size := len header - link_len_of l in
  let tot_len := ip_tot_len host stripped in
  first_compress
    (compress_decompress host header packet (link_len_of l) dumpers cid g)
  = Some (stripped,
          if (link_len_of l =? ETHER_HDR_LEN)
             && (len header =? ETHER_FRAME_MIN_LEN) && (tot_len <? ip_size)
          then tot_len else ip_size).
Proof.
  intros [Hcap Hlen] Hlink Heq stripped ip_size tot_len.
  unfold compress_decompress. rewrite to_u32_link_len.
  rewrite (proj2 (Z.leb_gt _ _) Hlink), (proj2 (Z.eqb_eq _ _) Heq).
  cbn [orb negb].
  assert (0 ≤ link_len_of l) by (by destruct l).
  rewrite to_int_small by lia.
  fold stripped ip_size tot_len.
  destruct ((link_len_of l =? ETHER_HDR_LEN)
            && (len header =? ETHER_FRAME_MIN_LEN)); [|done].
  cbn [andb]. by destruct (tot_len <? ip_size).
Qed.



(** Padding trimmed: 60 bytes of Ethernet that carry an IPv4 packet of 28
    bytes are compressed as those 28 bytes. *)
Example padding_trimmed_to_28 :
  engine_payload
    <$> first_compress
          (compress_decompress LittleEndian FrameSamples.header_60
             FrameSamples.ether_60 (link_len_of DLT_EN10MB) [None; None] 0
             FrameSamples.quiet)
  = Some (take 28 FrameSamples.ipv4_28).
Proof. by vm_compute. Qed.

Lemma byte_at_drop (buf : list byte) (n k : nat) :
  byte_at (drop n buf) k = byte_at buf (n + k).
Proof. unfold byte_at. by rewrite lookup_total_drop. Qed.

(** The version nibble is the high half of the first byte. *)
Lemma ip_version_nibble (ip_packet : list byte) :
  ip_version ip_packet = byte_at ip_packet 0 `div` 16.
Proof.
  unfold ip_version. pose proof (byte_at_range ip_packet 0) as Hb.
  rewrite Z.shiftr_div_pow2 by lia. change (2 ^ 4) with 16.
  change 15 with (Z.ones 4). rewrite Z.land_ones by lia.
  change (2 ^ 4) with 16. apply Z.mod_small.
  split; [apply Z.div_pos; lia|apply Z.div_lt_upper_bound; lia].
Qed.

(** C9: in the padding check of an Ethernet frame of 60 bytes, the high
    half of the byte after the 14 bytes of Ethernet header is the
    version nibble.  Only the nibble 4 selects the total-length field of
    IPv4, the bytes 2 and 3 of the IP packet, most significant first;
    any other nibble, that of a frame that is not IPv6 included, selects
    40 plus the payload-length field of the IPv6 layout, the bytes 4 and
    5.  That length, when it is below the 46 bytes of the stripped
    payload, is the size handed to the engine. *)
Theorem padding_version_dispatch (host : byte_order)
    (header : pcap_pkthdr) (packet : list byte)
    (dumpers : list (option dumper)) (cid : Z) (g : globals) :
  captured header packet →
  len header = ETHER_FRAME_MIN_LEN → caplen header = ETHER_FRAME_MIN_LEN →
  let stripped := drop 14 packet in
  let nibble := byte_at packet 14 `div` 16 in
  let tot_len :=
    if decide (nibble = 4)
    then 256 * byte_at packet 16 + byte_at packet 17
    else 40 + (256 * byte_at packet 18 + byte_at packet 19) in
  ip_version stripped = nibble
  ∧ ip_tot_len host stripped = tot_len
  ∧ first_compress
      (compress_decompress host header packet ETHER_HDR_LEN dumpers cid g)
    = Some (stripped, Z.min tot_len 46).
Proof.
  intros Hcap Hlen Hcaplen stripped nibble tot_len.
  assert (ip_version stripped = nibble) as Hv.
  { unfold stripped, nibble. by rewrite ip_version_nibble, byte_at_drop. }
  assert (ip_tot_len host stripped = tot_len) as Htot.
  { rewrite ip_tot_len_fields, Hv. unfold tot_len, net_u16, stripped.
    by rewrite !byte_at_drop. }
  split; [done|]. split; [done|].
  pose proof (compress_argument host DLT_EN10MB header packet dumpers cid g
                Hcap) as Harg.
  cbn zeta in Harg. change (link_len_of DLT_EN10MB) with ETHER_HDR_LEN in Harg.
  rewrite Harg by (rewrite ?Hlen, ?Hcaplen; done).
  change (drop (Z.to_nat ETHER_HDR_LEN) packet) with stripped.
  rewrite Htot, Hlen. do 2 f_equal.
  change (ETHER_FRAME_MIN_LEN - ETHER_HDR_LEN) with 46.
  rewrite !Z.eqb_refl. cbn [andb].
  destruct (Z.ltb_spec tot_len 46); lia.
Qed.

Lemma padding_version_dispatch_witness :
  captured FrameSamples.header_60 FrameSamples.version_0
  ∧ ip_version (drop 14 FrameSamples.version_0) = 0
  ∧ ip_tot_len BigEndian (drop 14 FrameSamples.version_0) = 42
  ∧ first_compress
      (compress_decompress BigEndian FrameSamples.header_60
         FrameSamples.version_0 ETHER_HDR_LEN [None; None] 0
         FrameSamples.quiet)
    = Some (drop 14 FrameSamples.version_0, 42).
Proof.
  assert (captured FrameSamples.header_60 FrameSamples.version_0) as Hcap
    by (by vm_compute).
  split; [exact Hcap|].
  exact (padding_version_dispatch BigEndian FrameSamples.header_60
           FrameSamples.version_0 [None; None] 0 FrameSamples.quiet Hcap
           eq_refl eq_refl).
Defined.

(** A frame of 60 bytes under the version nibble 0 is read as IPv6: its
    bytes 4 and 5 say 2, and 42 bytes go to the engine. *)
Example version_0_read_as_ipv6 :
  first_compress
    (compress_decompress BigEndian FrameSamples.header_60
       FrameSamples.version_0 ETHER_HDR_LEN [None; None] 0
       FrameSamples.quiet)
  = Some (drop 14 FrameSamples.version_0, 42).
Proof. by vm_compute. Qed.

(** ** The capture loop *)

Lemma count_outcome_globals (r : pipeline_result) (st : sniff_state) :
  sniff_globals (count_outcome r st) = globals_out r.
Proof.
  unfold count_outcome. by repeat case_match.
Qed.

(** In case of problem the loop writes the statistics, then the dump of
    the traces, then dies. *)
Lemma after_pipeline_failure (st : sniff_state) (r : pipeline_result) :
  ret r ≠ 1 →
  after_pipeline st r
  = die_after [stats_line (cid_out r) (count_outcome r st);
               (print_last_traces (traces (globals_out r))).1].
Proof.
  intros Hret. unfold after_pipeline.
  rewrite (proj2 (Z.eqb_neq _ _) Hret), count_outcome_globals. done.
Qed.

(** The statistics line, read back. *)
Lemma stats_fields_line (cid : Z) (st : sniff_state) :
  spec_stats_fields (stats_line cid st)
  = Some [counter st; cid; nb_ok st; err_comp st; err_decomp st; nb_ref st;
          nb_bad st; nb_internal_err st].
Proof.
  unfold spec_stats_fields, stats_line, tab.
  repeat first
    [ rewrite read_decimal_fmt_d by done
    | progress cbn [strip_prefix String.append Ascii.eqb Bool.eqb andb
                      mbind option_bind] ].
  by rewrite String.eqb_refl.
Qed.

(** C8: when the pipeline returns anything but 1, the loop writes to the
    standard error the statistics line, with the packet number, the CID
    and the six counters, the one of this outcome already counted; then
    the no-trace message when no trace was recorded, else the header
    line and the traces the ring buffer holds, oldest first; and only
    then aborts. *)
Theorem failure_report_then_abort (st : sniff_state) (r : pipeline_result)
    (calls : list (rohc_trace_level_t * string)) :
  ret r ≠ 1 →
  traces (globals_out r)
  = (trace_calls (is_verbose (globals_out r)) calls no_traces).2 →
  let K := length calls in
  let held := (K `min` Z.to_nat MAX_LAST_TRACES)%nat in
  let count (this : bool) (x : Z) := if this then to_u32 (x + 1) else x in
  let other :=
    negb ((ret r =? -1) || (ret r =? -2) || (ret r =? 0) || (ret r =? -3)) in
  ∃ stats dump : string,
    after_pipeline st r
    = Vis (EvStderr stats) (λ _, Vis (EvStderr dump) (λ _, abort))
    ∧ spec_stats_fields stats
      = Some [counter st; cid_out r; nb_ok st;
              count (ret r =? -1) (err_comp st);
              count (ret r =? -2) (err_decomp st);
              count (ret r =? 0) (nb_ref st);
              count (ret r =? -3) (nb_bad st);
              count other (nb_internal_err st)]
    ∧ (K = 0%nat → dump = "no trace to display" +:+ String nl "")
    ∧ (K ≠ 0%nat →
       ∃ lines : list string,
         spec_announced_count dump
         = Some (Z.of_nat held - 1, String.concat "" lines)
         ∧ Forall2 spec_kept (lastn held (calls.*2)) lines
         ∧ lines = stored_trace <$> lastn held (calls.*2)).
Proof.
  intros Hret Htraces K held count other.
  eexists _, _. split; [by apply after_pipeline_failure|].
  rewrite Htraces.
  destruct (dump_after_calls (is_verbose (globals_out r)) calls)
    as [Hlines Htext].
  cbn zeta in Hlines, Htext. fold K held in Hlines, Htext.
  rewrite Htext, Hlines. split_and!.
  - rewrite stats_fields_line. unfold other, count, count_outcome.
    destruct (Z.eqb_spec (ret r) (-1)) as [->|]; [done|].
    destruct (Z.eqb_spec (ret r) (-2)) as [->|]; [done|].
    destruct (Z.eqb_spec (ret r) 0) as [->|]; [done|].
    destruct (Z.eqb_spec (ret r) 1); [done|].
    by destruct (Z.eqb_spec (ret r) (-3)).
  - intros HK. by rewrite decide_True.
  - intros HK. rewrite decide_False by done.
    eexists. split; [apply announced_count_header|].
    split; [apply Forall2_stored_trace_kept|done].
Qed.

Lemma failure_report_then_abort_witness :
  ret FrameSamples.failed_decompression ≠ 1
  ∧ ∃ stats dump : string,
      after_pipeline FrameSamples.fresh_state
        FrameSamples.failed_decompression
      = Vis (EvStderr stats) (λ _, Vis (EvStderr dump) (λ _, abort))
      ∧ spec_stats_fields stats = Some [1; 0; 0; 0; 1; 0; 0; 0].
Proof.
  assert (ret FrameSamples.failed_decompression ≠ 1) as Hret by discriminate.
  split; [exact Hret|].
  destruct (failure_report_then_abort FrameSamples.fresh_state
              FrameSamples.failed_decompression FrameSamples.one_trace Hret
              eq_refl) as (stats & dump & Hrun & Hstats & _).
  exists stats, dump. split; [exact Hrun|exact Hstats].
Defined.

(** A frame cut short by the capture, met as the second frame of a
    session in which no trace was recorded: the loop counts it, the
    pipeline rejects it without a call into the library, and the loop
    reports and dies. *)
Example sniff_packet_cut_frame :
  sniff_packet LittleEndian (link_len_of DLT_EN10MB) FrameSamples.fresh_state
    FrameSamples.header_cut (take 40 FrameSamples.ether_60)
  = Vis (EvStdout (String "013"%char ""))
      (λ _, Vis (EvStdout "packet #2")
         (λ _, Vis (EvStderr ("bad PCAP packet (len = 60, caplen = 40)"
                              +:+ String nl ""))
            (λ _, die_after
                    ["packet #2, CID 0: stats OK, ERR(COMP), ERR(DECOMP), "
                     +:+ "ERR(REF), ERR(BAD), ERR(INTERNAL)" +:+ tab +:+ "="
                     +:+ tab +:+ "0" +:+ tab +:+ "0" +:+ tab +:+ "0"
                     +:+ tab +:+ "0" +:+ tab +:+ "1" +:+ tab +:+ "0"
                     +:+ String nl "";
                     no_trace_text]))).
Proof. reflexivity. Qed.

(** ** Runs of the pipeline *)

Import Session.

(** A run of [p] then [f] is a run of [p] that returns, then a run of
    [f] on what it returned; or a run of [p] that dies. *)
Lemma runs_bind {A B : Type} (p : prog A) (f : A → prog B)
    (tr : list call_log) (res : option B) :
  runs (p ≫= f) tr res →
  (∃ a tr1 tr2, runs p tr1 (Some a) ∧ runs (f a) tr2 res ∧ tr = tr1 ++ tr2)
  ∨ (runs p tr None ∧ res = None).
Proof.
  revert tr. induction p as [a|X e k IH]; intros tr H.
  - left. exists a, [], tr. by repeat split.
  - cbn in H. destruct H as [(x & tr' & -> & H)|(Hab & -> & ->)].
    + destruct (IH x tr' H) as [(a & tr1 & tr2 & H1 & H2 & ->)|[H1 ->]].
      * left. exists a, (log_of e x :: tr1), tr2.
        split_and!; [|done..]. left. by exists x, tr1.
      * right. split; [|done]. left. by exists x, tr'.
    + right. split; [|done]. by right.
Qed.

Ltac head_scrutinee p k :=
  lazymatch p with
  | mbind _ ?q => head_scrutinee q k
  | prog_bind _ ?q => head_scrutinee q k
  | if ?c then _ else _ => k c
  | let '(_, _) := ?x in _ => k x
  | match ?x with _ => _ end => k x
  end.

Ltac run_step :=
  cbn [runs mbind prog_mbind prog_bind mret prog_ret call abort is_abort
       log_of];
  match goal with
  | |- (_ = [] ∧ _ = Some _) → _ => intros [-> ?]; simplify_eq
  | |- @ex Empty_set _ ∨ _ → _ =>
      intros [([] & _)|(_ & -> & ?)]; simplify_eq
  | |- @ex _ _ ∨ (False ∧ _) → _ =>
      let x := fresh "x" in
      let tr' := fresh "tr" in
      let H := fresh "H" in
      intros [(x & tr' & -> & H)|([] & _)]; revert H
  | |- runs ?p _ _ → _ =>
      head_scrutinee p ltac:(fun c => destruct c eqn:?)
  end.

Ltac pipeline_cases :=
  unfold compress_decompress, after_compress, replay_traces;
  repeat run_step.

(** X1. A run of the pipeline that returns has made the calls its code
    tells: none for -3; compression and the default dump for -1;
    compression and the query for -4; and for -2, 0 and 1 compression,
    the query, the upkeep of the dump of the context, the dump of the
    frame and decompression, in this order. *)
Theorem pipeline_calls_by_code (host : byte_order) (header : pcap_pkthdr)
    (packet : list byte) (link_len_src : Z) (dumpers : list (option dumper))
    (cid : Z) (g : globals) (tr : list call_log) (r : pipeline_result) :
  runs (compress_decompress host header packet link_len_src dumpers cid g)
    tr (Some r) →
  (ret r = -3 ∧ tags tr = [])
  ∨ (ret r = -1 ∧ tags tr = [TCompress; TDumpOpen; TDump; TDumpClose])
  ∨ (ret r = -4 ∧ tags tr = [TCompress; TLastPacketInfo])
  ∨ ((ret r = -2 ∨ ret r = 0 ∨ ret r = 1)
     ∧ ∃ upkeep : list call_tag,
         (upkeep = [] ∨ upkeep = [TDumpOpen]
          ∨ upkeep = [TDumpClose; TUnlink; TDumpOpen])
         ∧ tags tr
           = [TCompress; TLastPacketInfo] ++ upkeep ++ [TDump; TDecompress]).
Proof.
  pipeline_cases.
  all: cbn.
  all: first
    [ by left
    | by right; left
    | by right; right; left
    | right; right; right; split; [by auto|];
      first [ by exists []; auto
            | by exists [TDumpOpen]; auto
            | by exists [TDumpClose; TUnlink; TDumpOpen]; auto ] ].
Qed.

(** The sample run is a run of the pipeline. *)
Lemma sample_run :
  runs (compress_decompress LittleEndian FrameSamples.header_60
          FrameSamples.ether_60 (link_len_of DLT_EN10MB) [None; None] 0
          FrameSamples.quiet)
    RunSamples.success_log (Some RunSamples.success_result).
Proof.
  left. exists tt. eexists. split; [reflexivity|].
  left. exists RunSamples.compressed. eexists. split; [reflexivity|].
  left. exists tt. eexists. split; [reflexivity|].
  left. exists (Some RunSamples.new_context_0). eexists.
  split; [reflexivity|].
  left. exists (Some 7%nat). eexists. split; [reflexivity|].
  left. exists tt. eexists. split; [reflexivity|].
  left. exists RunSamples.decompressed. eexists. split; [reflexivity|].
  left. exists tt. eexists. split; [reflexivity|].
  left. exists tt. eexists. split; [reflexivity|].
  split; reflexivity.
Defined.

Lemma pipeline_calls_by_code_witness :
  let tr := RunSamples.success_log in
  let r := RunSamples.success_result in
  runs (compress_decompress LittleEndian FrameSamples.header_60
          FrameSamples.ether_60 (link_len_of DLT_EN10MB) [None; None] 0
          FrameSamples.quiet) tr (Some r)
  ∧ ((ret r = -3 ∧ tags tr = [])
     ∨ (ret r = -1 ∧ tags tr = [TCompress; TDumpOpen; TDump; TDumpClose])
     ∨ (ret r = -4 ∧ tags tr = [TCompress; TLastPacketInfo])
     ∨ ((ret r = -2 ∨ ret r = 0 ∨ ret r = 1)
        ∧ ∃ upkeep : list call_tag,
            (upkeep = [] ∨ upkeep = [TDumpOpen]
             ∨ upkeep = [TDumpClose; TUnlink; TDumpOpen])
            ∧ tags tr
              = [TCompress; TLastPacketInfo] ++ upkeep
                ++ [TDump; TDecompress])).
Proof.
  split; [exact sample_run|].
  exact (pipeline_calls_by_code _ _ _ _ _ _ _ _ _ sample_run).
Defined.

(** X2. Whatever a run of the pipeline appends to a dump file, in the
    default file or in that of a context, is the frame as captured, link
    layer included, under its capture header: never the stripped or the
    trimmed payload. *)
Theorem pipeline_dumps_captured_frame (host : byte_order)
    (header : pcap_pkthdr) (packet : list byte) (link_len_src : Z)
    (dumpers : list (option dumper)) (cid : Z) (g : globals)
    (tr : list call_log) (res : option pipeline_result) :
  runs (compress_decompress host header packet link_len_src dumpers cid g)
    tr res →
  ∀ (d : option dumper) (header' : pcap_pkthdr) (packet' : list byte),
    LDump d header' packet' ∈ tr → header' = header ∧ packet' = packet.
Proof.
  pipeline_cases.
  all: intros dd header' packet' Hin.
  all: repeat (apply elem_of_cons in Hin as [Hin|Hin]; [by simplify_eq|]).
  all: by apply elem_of_nil in Hin.
Qed.

Lemma pipeline_dumps_captured_frame_witness :
  runs (compress_decompress LittleEndian FrameSamples.header_60
          FrameSamples.ether_60 (link_len_of DLT_EN10MB) [None; None] 0
          FrameSamples.quiet)
    RunSamples.success_log (Some RunSamples.success_result)
  ∧ ∀ (d : option dumper) (header' : pcap_pkthdr) (packet' : list byte),
      LDump d header' packet' ∈ RunSamples.success_log →
      header' = FrameSamples.header_60 ∧ packet' = FrameSamples.ether_60.
Proof.
  split; [exact sample_run|].
  exact (pipeline_dumps_captured_frame _ _ _ _ _ _ _ _ _ sample_run).
Defined.

(** X3. A run of the pipeline that returns leaves the table of dumpers
    with its length and changes at most the slot of the context the
    library reported: with -3, -1 or -4 the table and the CID are as
    they were; with -2, 0 or 1 the CID is the context id of the query,
    and the table is as it was unless the context is new. *)
Theorem pipeline_dumpers_frame (host : byte_order) (header : pcap_pkthdr)
    (packet : list byte) (link_len_src : Z) (dumpers : list (option dumper))
    (cid : Z) (g : globals) (tr : list call_log) (r : pipeline_result) :
  runs (compress_decompress host header packet link_len_src dumpers cid g)
    tr (Some r) →
  length (dumpers_out r) = length dumpers
  ∧ (∀ j : nat, j ≠ Z.to_nat (cid_out r) →
       dumpers_out r !! j = dumpers !! j)
  ∧ (ret r = -3 ∨ ret r = -1 ∨ ret r = -4 →
     dumpers_out r = dumpers ∧ cid_out r = cid)
  ∧ (ret r = -2 ∨ ret r = 0 ∨ ret r = 1 →
     ∃ info : last_packet_info,
       LLastPacketInfo (Some info) ∈ tr
       ∧ cid_out r = context_id info
       ∧ (is_context_init info = false → dumpers_out r = dumpers)).
Proof.
  pipeline_cases.
  all: cbn [ret dumpers_out cid_out globals_out].
  all: split_and!;
    [ by rewrite ?length_insert
    | intros j Hj; by rewrite ?list_lookup_insert_ne by done
    | intros Hret; by first [ lia | done ]
    | intros Hret; first [ lia | idtac ] ].
  all: eexists; split_and!;
    [ repeat constructor
    | done
    | by first [ done | congruence ] ].
Qed.

Lemma pipeline_dumpers_frame_witness :
  let tr := RunSamples.success_log in
  let r := RunSamples.success_result in
  runs (compress_decompress LittleEndian FrameSamples.header_60
          FrameSamples.ether_60 (link_len_of DLT_EN10MB) [None; None] 0
          FrameSamples.quiet) tr (Some r)
  ∧ length (dumpers_out r) = length [@None dumper; None]
  ∧ (∀ j : nat, j ≠ Z.to_nat (cid_out r) →
       dumpers_out r !! j = [@None dumper; None] !! j)
  ∧ (ret r = -3 ∨ ret r = -1 ∨ ret r = -4 →
     dumpers_out r = [None; None] ∧ cid_out r = 0)
  ∧ (ret r = -2 ∨ ret r = 0 ∨ ret r = 1 →
     ∃ info : last_packet_info,
       LLastPacketInfo (Some info) ∈ tr
       ∧ cid_out r = context_id info
       ∧ (is_context_init info = false → dumpers_out r = [None; None])).
Proof.
  split; [exact sample_run|].
  exact (pipeline_dumpers_frame _ _ _ _ _ _ _ _ _ sample_run).
Defined.

(** ** More on the packet comparator *)

Lemma memcmp_from_agree (a b : list byte) (n i : nat) :
  (∀ k : nat, (k < n)%nat → byte_at a (i + k) = byte_at b (i + k)) →
  memcmp_from a b i n = 0.
Proof.
  revert i. induction n as [|n IH]; intros i Hk; [done|].
  cbn [memcmp_from]. pose proof (Hk 0%nat ltac:(lia)) as H0.
  rewrite Nat.add_0_r in H0. rewrite H0, Z.eqb_refl.
  apply IH. intros k Hlt. replace (S i + k)%nat with (i + S k)%nat by lia.
  apply Hk. lia.
Qed.

Lemma memcmp_zero_iff (a b : list byte) (n : Z) :
  memcmp a b n = 0
  ↔ ∀ k : nat, Z.of_nat k < n → byte_at a k = byte_at b k.
Proof.
  unfold memcmp. split.
  - intros Hz k Hk. apply (memcmp_from_zero a b _ 0 Hz k). lia.
  - intros Hk. apply memcmp_from_agree. intros k Hlt. apply Hk. lia.
Qed.

(** X4. On two buffers with sizes that lie within them,
    [compare_packets] returns 1 when the sizes are equal and the buffers
    agree on every byte below the size, and 0 in every other case; it
    prints nothing exactly when it returns 1. *)
Theorem compare_packets_verdict (pkt1 pkt2 : list byte) (size1 size2 : Z) :
  0 ≤ size1 ≤ Z.of_nat (length pkt1) → 0 ≤ size2 ≤ Z.of_nat (length pkt2) →
  let same :=
    size1 = size2
    ∧ ∀ k : nat, Z.of_nat k < size1 → byte_at pkt1 k = byte_at pkt2 k in
  let r := compare_packets pkt1 size1 pkt2 size2 in
  (same → r = (1, ""))
  ∧ (¬ same → r.1 = 0 ∧ r.2 ≠ "").
Proof.
  intros _ _ same r. unfold r, compare_packets.
  destruct (Z.eqb_spec size1 size2) as [Hs|Hs]; cbn [andb].
  - destruct (Z.eqb_spec (memcmp pkt1 pkt2 size1) 0) as [Hm|Hm].
    + split; [done|]. intros Hn. exfalso. apply Hn. split; [done|].
      by apply memcmp_zero_iff.
    + split; [|done]. intros [_ Hsame]. exfalso. apply Hm.
      by apply memcmp_zero_iff.
  - split; [|done]. by intros [? _].
Qed.

Lemma compare_packets_verdict_witness :
  let same :=
    5 = 5
    ∧ ∀ k : nat, Z.of_nat k < 5 →
        byte_at Samples.five_bytes k = byte_at Samples.five_bytes' k in
  ¬ same
  ∧ (compare_packets Samples.five_bytes 5 Samples.five_bytes' 5).1 = 0
  ∧ (compare_packets Samples.five_bytes 5 Samples.five_bytes' 5).2 ≠ "".
Proof.
  intros same.
  assert (¬ same) as Hn.
  { intros [_ H]. specialize (H 1%nat eq_refl). discriminate H. }
  split; [exact Hn|].
  refine (proj2 (compare_packets_verdict Samples.five_bytes
                   Samples.five_bytes' 5 5 _ _) Hn); simpl; lia.
Defined.

(** X5. For sizes that lie within the buffers, the verdict of
    [compare_packets] does not depend on the order of the two packets. *)
Theorem compare_packets_symmetric (pkt1 pkt2 : list byte) (size1 size2 : Z) :
  0 ≤ size1 ≤ Z.of_nat (length pkt1) → 0 ≤ size2 ≤ Z.of_nat (length pkt2) →
  (compare_packets pkt1 size1 pkt2 size2).1
  = (compare_packets pkt2 size2 pkt1 size1).1.
Proof.
  intros _ _. unfold compare_packets.
  destruct (Z.eqb_spec size1 size2) as [->|Hs].
  - rewrite Z.eqb_refl. cbn [andb].
    destruct (Z.eqb_spec (memcmp pkt1 pkt2 size2) 0) as [H1|H1];
      destruct (Z.eqb_spec (memcmp pkt2 pkt1 size2) 0) as [H2|H2];
      try done; exfalso.
    + apply H2, memcmp_zero_iff. intros k Hk. symmetry.
      by apply (proj1 (memcmp_zero_iff pkt1 pkt2 size2) H1).
    + apply H1, memcmp_zero_iff. intros k Hk. symmetry.
      by apply (proj1 (memcmp_zero_iff pkt2 pkt1 size2) H2).
  - rewrite (proj2 (Z.eqb_neq size2 size1)) by done. done.
Qed.

Lemma compare_packets_symmetric_witness :
  (compare_packets Samples.five_bytes 5 Samples.zeros_181 181).1
  = (compare_packets Samples.zeros_181 181 Samples.five_bytes 5).1.
Proof.
  apply (compare_packets_symmetric Samples.five_bytes Samples.zeros_181
           5 181); simpl; lia.
Defined.

Lemma compare_packets_nonzero (pkt1 pkt2 : list byte) (size1 size2 : Z)
    (valid : Z) (text : string) :
  compare_packets pkt1 size1 pkt2 size2 = (valid, text) →
  (valid =? 0) = false
  ↔ size1 = size2
    ∧ ∀ k : nat, Z.of_nat k < size1 → byte_at pkt1 k = byte_at pkt2 k.
Proof.
  unfold compare_packets. rewrite <- memcmp_zero_iff.
  destruct (Z.eqb_spec size1 size2) as [Hs|Hs]; cbn [andb].
  - destruct (Z.eqb_spec (memcmp pkt1 pkt2 size1) 0) as [Hm|Hm];
      intros [= <- <-]; cbn; split; try done.
    intros [_ ?]. done.
  - intros [= <- <-]; cbn; split; try done. by intros [? _].
Qed.

(** X7. In a run of the pipeline that returns, a code of 1, 0 or -2
    tells that the decompressor was called; and the decompressor is
    only ever called on what the compressor gave back, of positive size.
    When the decompressor returns no positive size the pipeline returns
    -2; when it does, the pipeline returns 1 if the decompressed size is
    the size handed to the compressor and the decompressed bytes are,
    one by one, the bytes handed to the compressor, and 0 if not. *)
Theorem pipeline_verdict (host : byte_order) (header : pcap_pkthdr)
    (packet : list byte) (link_len_src : Z) (dumpers : list (option dumper))
    (cid : Z) (g : globals) (tr : list call_log) (r : pipeline_result) :
  runs (compress_decompress host header packet link_len_src dumpers cid g)
    tr (Some r) →
  (ret r = 1 ∨ ret r = 0 ∨ ret r = -2 →
   ∃ (rohc_packet : list byte) (rohc_size : Z) (decomp : engine_result),
     LDecompress rohc_packet rohc_size decomp ∈ tr)
  ∧ ∀ (rohc_packet : list byte) (rohc_size : Z) (decomp : engine_result),
      LDecompress rohc_packet rohc_size decomp ∈ tr →
      ∃ (ip_packet : list byte) (ip_size : Z) (comp : engine_result),
        LCompress ip_packet ip_size comp ∈ tr
        ∧ rohc_packet = out_bytes comp ∧ rohc_size = out_size comp
        ∧ 0 < out_size comp
        ∧ (out_size decomp ≤ 0 → ret r = -2)
        ∧ (0 < out_size decomp →
           let same :=
             out_size decomp = ip_size
             ∧ ∀ k : nat, Z.of_nat k < ip_size →
                 byte_at ip_packet k = byte_at (out_bytes decomp) k in
           (same → ret r = 1) ∧ (¬ same → ret r = 0)).
Proof.
  pipeline_cases.
  all: cbn [ret dumpers_out cid_out globals_out].
  all: split;
    [ intros Hret; first [lia | do 3 eexists; repeat constructor]
    | intros rohc_packet rohc_size decomp Hin ].
  all: repeat (apply elem_of_cons in Hin as [Hin|Hin];
               [try discriminate Hin; simplify_eq|]).
  all: try (by apply elem_of_nil in Hin).
  all: try match goal with
         | H : compare_packets _ _ _ _ = _ |- _ =>
             apply compare_packets_nonzero in H; rename H into Hcmp
         end.
  all: do 3 eexists; split_and!;
    [ repeat constructor | done | done | lia | intros Hle; first [done|lia]
    | intros Hpos; cbn zeta ].
  all: split; [intros Hsame|intros Hdiff].
  all: first
    [ done
    | lia
    | exfalso; destruct Hsame as [Hs Hk];
      match goal with
      | H : (?z =? 0) = true |- _ =>
          assert ((z =? 0) = false) by (apply Hcmp; by split); congruence
      end
    | exfalso; apply Hdiff;
      match goal with
      | H : (_ =? 0) = false |- _ =>
          destruct (proj1 Hcmp H) as [Hs Hk]; by split
      end ].
Qed.

Lemma pipeline_verdict_witness :
  let tr := RunSamples.success_log in
  let r := RunSamples.success_result in
  runs (compress_decompress LittleEndian FrameSamples.header_60
          FrameSamples.ether_60 (link_len_of DLT_EN10MB) [None; None] 0
          FrameSamples.quiet) tr (Some r)
  ∧ LDecompress [xfd; x04; x00] 3 RunSamples.decompressed ∈ tr
  ∧ ∃ (ip_packet : list byte) (ip_size : Z) (comp : engine_result),
      LCompress ip_packet ip_size comp ∈ tr
      ∧ [xfd; x04; x00] = out_bytes comp ∧ 3 = out_size comp
      ∧ 0 < out_size comp
      ∧ (out_size RunSamples.decompressed ≤ 0 → ret r = -2)
      ∧ (0 < out_size RunSamples.decompressed →
         let same :=
           out_size RunSamples.decompressed = ip_size
           ∧ ∀ k : nat, Z.of_nat k < ip_size →
               byte_at ip_packet k
               = byte_at (out_bytes RunSamples.decompressed) k in
         (same → ret r = 1) ∧ (¬ same → ret r = 0)).
Proof.
  assert (LDecompress [xfd; x04; x00] 3 RunSamples.decompressed
          ∈ RunSamples.success_log) as Hin by (repeat constructor).
  split; [exact sample_run|]. split; [exact Hin|].
  exact (proj2 (pipeline_verdict _ _ _ _ _ _ _ _ _ sample_run) _ _ _ Hin).
Defined.

(** ** Runs of the capture loop *)

Lemma after_pipeline_returns (st st' : sniff_state) (r : pipeline_result)
    (tr : list call_log) :
  runs (after_pipeline st r) tr (Some st') →
  ret r = 1 ∧ tr = [] ∧ st' = count_outcome r st.
Proof.
  unfold after_pipeline. destruct (Z.eqb_spec (ret r) 1) as [Hr|Hr]; cbn [negb].
  - by intros [-> [= <-]].
  - repeat run_step.
Qed.

(** One iteration that comes to its end, taken apart: the pipeline has
    returned 1 and its outcome has been counted. *)
Lemma iteration_inv (host : byte_order) (link_len_src : Z)
    (st st' : sniff_state) (header : pcap_pkthdr) (packet : list byte)
    (tr : list call_log) :
  runs (sniff_packet host link_len_src st header packet) tr (Some st') →
  ∃ (r : pipeline_result) (tr_p : list call_log),
    runs (compress_decompress host header packet link_len_src (dumpers st) 0
            (sniff_globals st)) tr_p (Some r)
    ∧ ret r = 1
    ∧ st' = count_outcome r
              {| counter := to_u32 (counter st + 1); nb_ok := nb_ok st;
                 nb_bad := nb_bad st; nb_internal_err := nb_internal_err st;
                 err_comp := err_comp st; err_decomp := err_decomp st;
                 nb_ref := nb_ref st; dumpers := dumpers st;
                 sniff_globals := sniff_globals st |}.
Proof.
  unfold sniff_packet. cbn [counter nb_ok dumpers sniff_globals].
  repeat run_step.
  all: intros H; apply runs_bind in H as [(r & tr1 & tr2 & H1 & H2 & ->)|[_ [=]]].
  all: apply after_pipeline_returns in H2 as (Hret & -> & ->).
  all: by exists r, tr1.
Qed.

(** X8. An iteration of the capture loop comes to its end only when the
    pipeline has returned 1: it has then counted one packet and one
    success, both modulo 2^32, and no error; the table of dumpers and
    the globals are those the pipeline left. *)
Theorem sniff_packet_returns (host : byte_order) (link_len_src : Z)
    (st st' : sniff_state) (header : pcap_pkthdr) (packet : list byte)
    (tr : list call_log) :
  runs (sniff_packet host link_len_src st header packet) tr (Some st') →
  ∃ (r : pipeline_result) (tr_p : list call_log),
    runs (compress_decompress host header packet link_len_src (dumpers st) 0
            (sniff_globals st)) tr_p (Some r)
    ∧ ret r = 1
    ∧ counter st' = to_u32 (counter st + 1)
    ∧ nb_ok st' = to_u32 (nb_ok st + 1)
    ∧ nb_bad st' = nb_bad st
    ∧ nb_internal_err st' = nb_internal_err st
    ∧ err_comp st' = err_comp st
    ∧ err_decomp st' = err_decomp st
    ∧ nb_ref st' = nb_ref st
    ∧ dumpers st' = dumpers_out r
    ∧ sniff_globals st' = globals_out r.
Proof.
  intros H. apply iteration_inv in H as (r & tr_p & Hrun & Hret & ->).
  exists r, tr_p. split; [done|]. split; [done|].
  unfold count_outcome. rewrite Hret. by cbn.
Qed.

Lemma to_u32_succ (x : Z) : to_u32 (to_u32 x + 1) = to_u32 (x + 1).
Proof. unfold to_u32. by rewrite Zplus_mod_idemp_l. Qed.

(** X9. A capture loop that comes to the end of its frames without
    dying has counted as many packets and as many successes as it was
    given frames, modulo 2^32, and no error of any kind. *)
Theorem sniff_frames_returns (host : byte_order) (link_len_src : Z)
    (frames : list (pcap_pkthdr * list byte)) (st st' : sniff_state)
    (tr : list call_log) :
  runs (sniff_frames host link_len_src frames st) tr (Some st') →
  let n := Z.of_nat (length frames) in
  to_u32 (counter st') = to_u32 (counter st + n)
  ∧ to_u32 (nb_ok st') = to_u32 (nb_ok st + n)
  ∧ nb_bad st' = nb_bad st
  ∧ nb_internal_err st' = nb_internal_err st
  ∧ err_comp st' = err_comp st
  ∧ err_decomp st' = err_decomp st
  ∧ nb_ref st' = nb_ref st.
Proof.
  revert st tr. induction frames as [|[header packet] frames IH];
    intros st tr H n.
  - destruct H as [-> [= <-]]. unfold n. cbn. by rewrite !Z.add_0_r.
  - cbn [sniff_frames] in H.
    apply runs_bind in H as [(st1 & tr1 & tr2 & H1 & H2 & ->)|[_ [=]]].
    apply iteration_inv in H1 as (r & trp & _ & Hret & ->).
    assert (counter (count_outcome r {| counter := to_u32 (counter st + 1);
                       nb_ok := nb_ok st; nb_bad := nb_bad st;
                       nb_internal_err := nb_internal_err st;
                       err_comp := err_comp st; err_decomp := err_decomp st;
                       nb_ref := nb_ref st; dumpers := dumpers st;
                       sniff_globals := sniff_globals st |})
            = to_u32 (counter st + 1)) as Hc
      by (unfold count_outcome; rewrite Hret; by cbn).
    assert (nb_ok (count_outcome r {| counter := to_u32 (counter st + 1);
                     nb_ok := nb_ok st; nb_bad := nb_bad st;
                     nb_internal_err := nb_internal_err st;
                     err_comp := err_comp st; err_decomp := err_decomp st;
                     nb_ref := nb_ref st; dumpers := dumpers st;
                     sniff_globals := sniff_globals st |})
            = to_u32 (nb_ok st + 1)) as Hok
      by (unfold count_outcome; rewrite Hret; by cbn).
    set (st1 := count_outcome r _) in *.
    assert (nb_bad st1 = nb_bad st ∧ nb_internal_err st1 = nb_internal_err st
            ∧ err_comp st1 = err_comp st ∧ err_decomp st1 = err_decomp st
            ∧ nb_ref st1 = nb_ref st) as (? & ? & ? & ? & ?)
      by (unfold st1, count_outcome; rewrite Hret; by cbn).
    destruct (IH _ _ H2) as (Hc' & Hok' & ? & ? & ? & ? & ?).
    split_and!; try congruence.
    + rewrite Hc', Hc. unfold n. cbn [length].
      rewrite Nat2Z.inj_succ.
      unfold to_u32. rewrite Zplus_mod_idemp_l. f_equal. lia.
    + rewrite Hok', Hok. unfold n. cbn [length].
      rewrite Nat2Z.inj_succ.
      unfold to_u32. rewrite Zplus_mod_idemp_l. f_equal. lia.
Qed.

Lemma closed_app (tr1 tr2 : list call_log) :
  closed (tr1 ++ tr2) = closed tr1 ++ closed tr2.
Proof. apply omap_app. Qed.

Lemma tags_app (tr1 tr2 : list call_log) :
  tags (tr1 ++ tr2) = tags tr1 ++ tags tr2.
Proof. apply omap_app. Qed.

Lemma open_dumpers_step (ds : list (option dumper)) (i n : nat) :
  filter (λ d, d ≠ None) (take (S n) (drop i ds))
  = (if bool_decide (ds !!! i ≠ None) then [ds !!! i] else [])
    ++ filter (λ d, d ≠ None) (take n (drop (S i) ds)).
Proof.
  destruct (ds !! i) as [d|] eqn:Hd.
  - rewrite (drop_S _ _ _ Hd), (list_lookup_total_correct _ _ _ Hd).
    cbn [take]. destruct d as [x|].
    + rewrite bool_decide_eq_true_2 by done.
      rewrite filter_cons_True by done. reflexivity.
    + rewrite bool_decide_eq_false_2 by (intros H; by apply H).
      rewrite filter_cons_False by (intros H; by apply H). reflexivity.
  - rewrite (drop_ge ds i) by (by apply lookup_ge_None).
    rewrite (drop_ge ds (S i)) by (apply lookup_ge_None in Hd; lia).
    rewrite list_lookup_total_alt, Hd. by rewrite !take_nil.
Qed.

Lemma close_dumpers_from_runs (ds : list (option dumper)) (n i : nat)
    (tr : list call_log) (res : option unit) :
  runs (close_dumpers_from ds i n) tr res →
  res = Some tt
  ∧ closed tr = filter (λ d, d ≠ None) (take n (drop i ds))
  ∧ tags tr = replicate (length (closed tr)) TDumpClose.
Proof.
  revert i tr. induction n as [|n IH]; intros i tr H.
  - destruct H as [-> ->]. by rewrite take_0.
  - cbn [close_dumpers_from] in H.
    apply runs_bind in H as [(u & tr1 & tr2 & H1 & H2 & ->)|[H1 ->]].
    + destruct (IH _ _ H2) as (-> & Hcl & Htags).
      split; [done|].
      rewrite closed_app, tags_app, open_dumpers_step, Htags, Hcl.
      revert H1. case_bool_decide; repeat run_step; done.
    + exfalso. revert H1. case_bool_decide; repeat run_step.
Qed.

(** X10. The end of [sniff] always returns true, after it has closed
    each dumper that is open among the first [max_contexts] of the
    table, once and in the order of the context ids; it compresses,
    decompresses, dumps, opens and unlinks nothing, and does not abort. *)
Theorem sniff_end_closes_dumpers (stop_program : bool) (max_contexts : nat)
    (ds : list (option dumper)) (tr : list call_log) (res : option bool) :
  runs (sniff_end stop_program max_contexts ds) tr res →
  res = Some true
  ∧ closed tr = filter (λ d, d ≠ None) (take max_contexts ds)
  ∧ tags tr = replicate (length (closed tr)) TDumpClose.
Proof.
  unfold sniff_end. intros H.
  apply runs_bind in H as [(u & tr1 & tr2 & H1 & H2 & ->)|[H1 ->]].
  - apply runs_bind in H2 as [(u' & tr3 & tr4 & H3 & H4 & ->)|[H3 ->]].
    + destruct H4 as [-> ->].
      apply close_dumpers_from_runs in H3 as (_ & Hcl & Htags).
      rewrite drop_0 in Hcl. rewrite app_nil_r. split; [done|].
      assert (closed tr1 = [] ∧ tags tr1 = []) as [Hc1 Ht1].
      { revert H1. destruct stop_program; repeat run_step; done. }
      unfold closed, tags in *. rewrite !omap_app, Hc1, Ht1. done.
    + by apply close_dumpers_from_runs in H3 as ([=] & _).
  - exfalso. revert H1. destruct stop_program; repeat run_step.
Qed.

(** The sample iteration is a run of the loop body, and of the loop on
    its one frame. *)
Lemma sample_iteration :
  runs (sniff_packet LittleEndian (link_len_of DLT_EN10MB)
          LoopSamples.before FrameSamples.header_60 FrameSamples.ether_60)
    LoopSamples.iteration_log (Some LoopSamples.after).
Proof.
  left. exists tt. eexists. split; [reflexivity|].
  left. exists tt. eexists. split; [reflexivity|].
  left. exists tt. eexists. split; [reflexivity|].
  left. exists RunSamples.compressed. eexists. split; [reflexivity|].
  left. exists tt. eexists. split; [reflexivity|].
  left. exists (Some RunSamples.new_context_0). eexists.
  split; [reflexivity|].
  left. exists (Some 7%nat). eexists. split; [reflexivity|].
  left. exists tt. eexists. split; [reflexivity|].
  left. exists RunSamples.decompressed. eexists. split; [reflexivity|].
  left. exists tt. eexists. split; [reflexivity|].
  left. exists tt. eexists. split; [reflexivity|].
  split; reflexivity.
Defined.

Lemma sample_session :
  runs (sniff_frames LittleEndian (link_len_of DLT_EN10MB)
          [(FrameSamples.header_60, FrameSamples.ether_60)]
          LoopSamples.before)
    LoopSamples.iteration_log (Some LoopSamples.after).
Proof.
  left. exists tt. eexists. split; [reflexivity|].
  left. exists tt. eexists. split; [reflexivity|].
  left. exists tt. eexists. split; [reflexivity|].
  left. exists RunSamples.compressed. eexists. split; [reflexivity|].
  left. exists tt. eexists. split; [reflexivity|].
  left. exists (Some RunSamples.new_context_0). eexists.
  split; [reflexivity|].
  left. exists (Some 7%nat). eexists. split; [reflexivity|].
  left. exists tt. eexists. split; [reflexivity|].
  left. exists RunSamples.decompressed. eexists. split; [reflexivity|].
  left. exists tt. eexists. split; [reflexivity|].
  left. exists tt. eexists. split; [reflexivity|].
  split; reflexivity.
Defined.

Lemma sample_end :
  runs (sniff_end true 2 [Some 7%nat; None]) LoopSamples.end_log (Some true).
Proof.
  left. exists tt. eexists. split; [reflexivity|].
  left. exists tt. eexists. split; [reflexivity|].
  left. exists tt. eexists. split; [reflexivity|].
  split; reflexivity.
Defined.

Lemma sniff_packet_returns_witness :
  let st := LoopSamples.before in
  let st' := LoopSamples.after in
  runs (sniff_packet LittleEndian (link_len_of DLT_EN10MB) st
          FrameSamples.header_60 FrameSamples.ether_60)
    LoopSamples.iteration_log (Some st')
  ∧ ∃ (r : pipeline_result) (tr_p : list call_log),
      runs (compress_decompress LittleEndian FrameSamples.header_60
              FrameSamples.ether_60 (link_len_of DLT_EN10MB) (dumpers st) 0
              (sniff_globals st)) tr_p (Some r)
      ∧ ret r = 1
      ∧ counter st' = to_u32 (counter st + 1)
      ∧ nb_ok st' = to_u32 (nb_ok st + 1)
      ∧ nb_bad st' = nb_bad st
      ∧ nb_internal_err st' = nb_internal_err st
      ∧ err_comp st' = err_comp st
      ∧ err_decomp st' = err_decomp st
      ∧ nb_ref st' = nb_ref st
      ∧ dumpers st' = dumpers_out r
      ∧ sniff_globals st' = globals_out r.
Proof.
  split; [exact sample_iteration|].
  exact (sniff_packet_returns _ _ _ _ _ _ _ sample_iteration).
Defined.

Lemma sniff_frames_returns_witness :
  let st := LoopSamples.before in
  let st' := LoopSamples.after in
  runs (sniff_frames LittleEndian (link_len_of DLT_EN10MB)
          [(FrameSamples.header_60, FrameSamples.ether_60)] st)
    LoopSamples.iteration_log (Some st')
  ∧ to_u32 (counter st') = to_u32 (counter st + 1)
  ∧ to_u32 (nb_ok st') = to_u32 (nb_ok st + 1)
  ∧ nb_bad st' = nb_bad st
  ∧ nb_internal_err st' = nb_internal_err st
  ∧ err_comp st' = err_comp st
  ∧ err_decomp st' = err_decomp st
  ∧ nb_ref st' = nb_ref st.
Proof.
  split; [exact sample_session|].
  exact (sniff_frames_returns _ _ _ _ _ _ sample_session).
Defined.

Lemma sniff_end_closes_dumpers_witness :
  let tr := LoopSamples.end_log in
  runs (sniff_end true 2 [Some 7%nat; None]) tr (Some true)
  ∧ Some true = Some true
  ∧ closed tr = filter (λ d, d ≠ None) (take 2 [Some 7%nat; None])
  ∧ tags tr = replicate (length (closed tr)) TDumpClose.
Proof.
  split; [exact sample_end|].
  exact (sniff_end_closes_dumpers _ _ _ _ _ sample_end).
Defined.


(** ** More on the RTP detection callback *)

(** X11. On either host the callback returns true exactly when: the
    ports are not both 5060; the parity test passes, which on a
    big-endian host reads the parity of the destination port and on a
    little-endian host that of its high byte; the UDP length field is at
    most 200; the payload has at least 12 bytes; its first byte lies in
    128..191; and the low seven bits of its second byte are 3, 4, 18 or
    101. *)
Theorem rtp_detect_cb_exact (host : byte_order) (ip udp payload : list byte)
    (payload_size : Z) :
  rtp_detect_cb host ip udp payload payload_size = true
  ↔ ¬ (udp_sport udp = 5060 ∧ udp_dport udp = 5060)
    ∧ Z.even (match host with
              | BigEndian => udp_dport udp
              | LittleEndian => byte_at udp 2
              end) = true
    ∧ udp_length udp ≤ 200
    ∧ 12 ≤ payload_size
    ∧ 128 ≤ byte_at payload 0 < 192
    ∧ byte_at payload 1 mod 128 ∈ rtp_payload_types.
Proof.
  rewrite rtp_detect_cb_rules, dport_parity_test.
  rewrite !andb_true_iff, negb_true_iff, andb_false_iff.
  unfold pt_allowed, sip_port.
  rewrite bool_decide_eq_true, !Z.leb_le, !Z.eqb_neq, Z.eqb_eq.
  pose proof (byte_at_range payload 0).
  assert (byte_at payload 0 `div` 64 = 2 ↔ 128 ≤ byte_at payload 0 < 192)
    as -> by (split; intros; Z.div_mod_to_equations; lia).
  destruct host; intuition lia.
Qed.

(** X12. The verdict of the callback rests on the first six bytes of
    the UDP header, the first two bytes of the payload and the size of
    the payload only: not on the IP header, not on the UDP checksum, not
    on the rest of the payload. *)
Theorem rtp_detect_cb_reads (host : byte_order)
    (ip ip' udp udp' payload payload' : list byte) (payload_size : Z) :
  take 6 udp = take 6 udp' → take 2 payload = take 2 payload' →
  rtp_detect_cb host ip udp payload payload_size
  = rtp_detect_cb host ip' udp' payload' payload_size.
Proof.
  intros Hudp Hpay.
  assert (∀ i : nat, (i < 6)%nat → byte_at udp i = byte_at udp' i) as Hu.
  { intros i Hi. unfold byte_at. rewrite !list_lookup_total_alt.
    by rewrite <- (lookup_take_lt udp 6 i), Hudp, lookup_take_lt by done. }
  assert (∀ i : nat, (i < 2)%nat → byte_at payload i = byte_at payload' i)
    as Hp.
  { intros i Hi. unfold byte_at. rewrite !list_lookup_total_alt.
    by rewrite <- (lookup_take_lt payload 2 i), Hpay, lookup_take_lt by done. }
  unfold rtp_detect_cb, load_u16.
  rewrite !(Hu 0%nat), !(Hu 1%nat), !(Hu 2%nat), !(Hu 3%nat), !(Hu 4%nat),
    !(Hu 5%nat), !(Hp 0%nat), !(Hp 1%nat) by lia.
  done.
Qed.

Lemma rtp_detect_cb_reads_witness :
  take 6 Samples.udp_to_4096 = take 6 (udp_header 40000 4096 28 65535)
  ∧ take 2 Samples.rtp_payload_20 = take 2 ([x80; x03] ++ replicate 18 xff)
  ∧ rtp_detect_cb BigEndian [] Samples.udp_to_4096 Samples.rtp_payload_20 20
    = rtp_detect_cb BigEndian [x45] (udp_header 40000 4096 28 65535)
        ([x80; x03] ++ replicate 18 xff) 20.
Proof.
  split; [reflexivity|]. split; [reflexivity|].
  apply (rtp_detect_cb_reads BigEndian [] [x45] Samples.udp_to_4096
           (udp_header 40000 4096 28 65535) Samples.rtp_payload_20
           ([x80; x03] ++ replicate 18 xff) 20); reflexivity.
Defined.


(** ** More on the ring buffer of the last traces *)

(** X13. What a slot keeps of a trace is a prefix of the trace of at
    most [MAX_TRACE_LEN] characters; a trace of at most that many
    characters, none of them NUL, is kept whole. *)
Theorem stored_trace_prefix (msg : string) :
  (String.length (stored_trace msg) ≤ MAX_TRACE_LEN)%nat
  ∧ (∃ rest : string, msg = stored_trace msg +:+ rest)
  ∧ ((String.length msg ≤ MAX_TRACE_LEN)%nat → c_str msg = msg →
     stored_trace msg = msg).
Proof.
  unfold stored_trace. split_and!.
  - pose proof (c_str_length (String.substring 0 MAX_TRACE_LEN msg)).
    pose proof (substring_0_length MAX_TRACE_LEN msg). lia.
  - destruct (substring_0_prefix MAX_TRACE_LEN msg) as [r1 H1].
    destruct (c_str_prefix (String.substring 0 MAX_TRACE_LEN msg))
      as [r2 H2].
    exists (r2 +:+ r1). by rewrite <- append_assoc, <- H2, <- H1.
  - intros Hlen Hc. by rewrite substring_0_all, Hc.
Qed.

Lemma stored_trace_prefix_witness :
  (String.length "IR packet" ≤ MAX_TRACE_LEN)%nat
  ∧ c_str "IR packet" = "IR packet"
  ∧ stored_trace "IR packet" = "IR packet".
Proof.
  assert (String.length "IR packet" ≤ MAX_TRACE_LEN)%nat as Hlen
    by (vm_compute; lia).
  split; [exact Hlen|]. split; [reflexivity|].
  exact (proj2 (proj2 (stored_trace_prefix "IR packet")) Hlen eq_refl).
Defined.

Lemma mod_succ_wrap (n : Z) : 1 < n → (n + 1) mod n = 1.
Proof.
  intros Hn. replace (n + 1) with (1 + 1 * n) by lia.
  rewrite Z.mod_add by lia. apply Z.mod_small. lia.
Qed.

Lemma record_trace_advances (K : nat) (msg : string) (st : trace_state) :
  cursors_after K st → cursors_after (S K) (record_trace msg st).
Proof.
  pose proof MAX_LAST_TRACES_gt_1 as HN.
  destruct st as [buf first last]. unfold cursors_after, record_trace.
  cbn [last_traces last_traces_first last_traces_last].
  intros [Hlen Hc]. split; [by rewrite length_insert|].
  destruct K as [|K].
  - destruct Hc as [-> ->]. rewrite Z.eqb_refl.
    rewrite decide_True by lia. split; [|done].
    symmetry. apply Z.mod_small. lia.
  - destruct Hc as [-> ->].
    set (k := Z.of_nat (S K)) in *.
    assert (1 ≤ k) as Hk by (unfold k; lia).
    replace (Z.of_nat (S (S K))) with (k + 1) by (unfold k; lia).
    replace (k + 1 - 1) with k by lia.
    assert (0 ≤ (k - 1) mod MAX_LAST_TRACES < MAX_LAST_TRACES) as Hb
      by (apply Z.mod_pos_bound; lia).
    rewrite (proj2 (Z.eqb_neq ((k - 1) mod MAX_LAST_TRACES) (-1))) by lia.
    rewrite Zplus_mod_idemp_l. replace (k - 1 + 1) with k by lia.
    split; [done|].
    assert (0 ≤ k mod MAX_LAST_TRACES < MAX_LAST_TRACES) as Hb'
      by (apply Z.mod_pos_bound; lia).
    destruct (decide (k ≤ MAX_LAST_TRACES)) as [Hle|Hgt].
    + change (0 =? -1) with false. cbn iota.
      destruct (decide (k = MAX_LAST_TRACES)) as [->|Hne].
      * rewrite Z.mod_same by lia. rewrite Z.eqb_refl.
        rewrite decide_False by lia.
        rewrite mod_succ_wrap by done. apply Z.mod_small. lia.
      * rewrite (Z.mod_small k) by lia.
        rewrite (proj2 (Z.eqb_neq 0 k)) by lia.
        by rewrite decide_True by lia.
    + rewrite (proj2 (Z.eqb_neq (k mod MAX_LAST_TRACES) (-1))) by lia.
      rewrite Z.eqb_refl, decide_False by lia.
      by rewrite Zplus_mod_idemp_l.
Qed.

(** X14. After K calls of the callback, K at least 1, the buffer still
    has its 5000 slots, the newest line is in the slot (K - 1) mod 5000,
    and the oldest line held is in the slot 0 when K is at most 5000 and
    in the slot K mod 5000 after that: both indices stay within the
    buffer. *)
Theorem trace_cursors (is_verbose : bool)
    (call : rohc_trace_level_t * string)
    (calls : list (rohc_trace_level_t * string)) :
  let st := (trace_calls is_verbose (call :: calls) no_traces).2 in
  let K := Z.of_nat (length (call :: calls)) in
  length (last_traces st) = Z.to_nat MAX_LAST_TRACES
  ∧ last_traces_last st = (K - 1) mod MAX_LAST_TRACES
  ∧ last_traces_first st
    = (if decide (K ≤ MAX_LAST_TRACES) then 0 else K mod MAX_LAST_TRACES)
  ∧ 0 ≤ last_traces_first st < MAX_LAST_TRACES
  ∧ 0 ≤ last_traces_last st < MAX_LAST_TRACES.
Proof.
  intros st K. pose proof MAX_LAST_TRACES_gt_1 as HN.
  assert (∀ cs, cursors_after (length cs)
                  (trace_calls is_verbose cs no_traces).2) as Hall.
  { induction cs as [|c cs IH] using rev_ind.
    - split; [apply length_replicate|done].
    - rewrite trace_calls_snoc, length_app, Nat.add_1_r.
      by apply record_trace_advances. }
  destruct (Hall (call :: calls)) as [Hlen [Hlast Hfirst]].
  fold st in Hlen, Hlast, Hfirst. fold K in Hlast, Hfirst.
  split_and!; try done.
  - rewrite Hfirst. case_decide; [lia|]. apply Z.mod_pos_bound. lia.
  - rewrite Hfirst. case_decide; [lia|]. apply Z.mod_pos_bound. lia.
  - rewrite Hlast. apply Z.mod_pos_bound. lia.
  - rewrite Hlast. apply Z.mod_pos_bound. lia.
Qed.


Lemma rows_show_length (pkt1 pkt2 : list byte) (i n : nat)
    (rows : list string) :
  rows_show pkt1 pkt2 i n rows → length rows = ((n + 3) / 4)%nat.
Proof.
  induction 1 as [|i n row rows Hn Hrow Hrows IH]; [done|].
  cbn [length]. rewrite IH.
  destruct (decide (n < 4)%nat) as [Hlt|Hge].
  - replace (n - 4)%nat with 0%nat by lia. cbn.
    assert (n = 1%nat ∨ n = 2%nat ∨ n = 3%nat) as Hn3 by lia.
    destruct Hn3 as [Hn3|[Hn3|Hn3]]; by rewrite Hn3.
  - replace (n + 3)%nat with ((n - 4 + 3) + 1 * 4)%nat by lia.
    rewrite Nat.div_add by lia. lia.
Qed.

(** X15. When [compare_packets] does not find the packets equal,
    their sizes within the buffers, its
    dump has one row for every four bytes of the first
    min(180, size1, size2), the last row for what is left of them: 45
    rows at most, however large the packets. *)
Theorem compare_packets_rows (pkt1 pkt2 : list byte) (size1 size2 : Z) :
  0 ≤ size1 ≤ Z.of_nat (length pkt1) → 0 ≤ size2 ≤ Z.of_nat (length pkt2) →
  (size1 =? size2) && (memcmp pkt1 pkt2 size1 =? 0) = false →
  let out := (compare_packets pkt1 size1 pkt2 size2).2 in
  let shown := Z.min 180 (Z.min size1 size2) in
  Z.of_nat (length (dump_rows out)) = (shown + 3) / 4
  ∧ (length (dump_rows out) ≤ 45)%nat.
Proof.
  intros H1 H2 Hne out shown. unfold out, compare_packets. rewrite Hne.
  cbn [snd]. fold shown.
  destruct (dump_loop_rows pkt1 pkt2 (Z.to_nat shown) 0
              (replicate 4 "") (replicate 4 "") eq_refl eq_refl)
    as (rows & Hdump & Hshow).
  rewrite Nat.add_0_l, Z2Nat.id in Hdump by (unfold shown; lia).
  rewrite Hdump.
  set (pre := ([banner_compare; banner_columns]
               ++ if negb (size1 =? size2)
                  then [sizes_text size1 size2 shown] else [])%list).
  assert (Forall (λ l, is_dump_row l = false ∧ no_nl l = true) pre) as Hpre.
  { unfold pre. apply Forall_app. split; [by repeat constructor|].
    destruct (negb _); repeat constructor. apply no_nl_sizes_text. }
  match goal with
  | |- context [dump_rows ?o] =>
      replace o with (unlines pre +:+ unlines rows
                      +:+ banner_different +:+ String nl "")
  end.
  - rewrite (dump_rows_output pre rows Hpre (rows_show_rows _ _ _ _ _ Hshow)).
    rewrite (rows_show_length _ _ _ _ _ Hshow).
    assert (Z.of_nat ((Z.to_nat shown + 3) / 4) = (shown + 3) / 4) as Hq.
    { rewrite Nat2Z.inj_div, Nat2Z.inj_add, Z2Nat.id by (unfold shown; lia).
      done. }
    split; [done|].
    assert ((shown + 3) / 4 < 46); [|lia].
    apply Z.div_lt_upper_bound; unfold shown; lia.
  - unfold pre. rewrite unlines_app, append_assoc.
    destruct (negb _); [|done].
    rewrite !unlines_cons. simpl unlines. by rewrite !append_assoc.
Qed.

Lemma compare_packets_rows_witness :
  (181 =? 181)
    && (memcmp Samples.zeros_181 Samples.zeros_180_one 181 =? 0) = false
  ∧ Z.of_nat (length (dump_rows (compare_packets Samples.zeros_181 181
                                   Samples.zeros_180_one 181).2))
    = (Z.min 180 (Z.min 181 181) + 3) / 4
  ∧ (length (dump_rows (compare_packets Samples.zeros_181 181
                          Samples.zeros_180_one 181).2) ≤ 45)%nat.
Proof.
  assert ((181 =? 181)
          && (memcmp Samples.zeros_181 Samples.zeros_180_one 181 =? 0)
          = false) as Hne by (by vm_compute).
  split; [exact Hne|].
  apply (compare_packets_rows Samples.zeros_181 Samples.zeros_180_one
           181 181); [simpl; lia..|exact Hne].
Defined.


(** ** The command line *)

Section MainFacts.

Variables SMALL LARGE : Z.
Variable version : string.
Variable atoi : string → Z.

#[local] Abbreviation parse_args := (Main.parse_args version atoi).
#[local] Abbreviation check_options := (Main.check_options SMALL LARGE).
#[local] Abbreviation main := (Main.main SMALL LARGE version atoi).

(** What the loop over the arguments leaves in the options comes from
    the options it started with or from the arguments. *)
Lemma parse_args_options (n : nat) :
  ∀ (argv : list string) (o o' : Main.options),
    (length argv ≤ n)%nat → parse_args argv o = inr o' →
    (Main.cid_type o' = Main.cid_type o
     ∨ ∃ c, Main.cid_type o' = Some c ∧ c ∈ argv)
    ∧ (Main.device_name o' = Main.device_name o
       ∨ ∃ d, Main.device_name o' = Some d ∧ d ∈ argv)
    ∧ (Main.max_contexts o' = Main.max_contexts o
       ∨ ∃ a, a ∈ argv ∧ Main.max_contexts o' = atoi a)
    ∧ (Main.opt_verbose o' = Main.opt_verbose o ∨ "--verbose" ∈ argv).
Proof.
  induction n as [|n IH]; intros argv o o' Hlen Hp.
  { destruct argv; [|cbn in Hlen; lia]. cbn in Hp. injection Hp as <-.
    by repeat split; left. }
  destruct argv as [|arg rest]; [cbn in Hp; injection Hp as <-;
                                 by repeat split; left|].
  cbn [Main.parse_args] in Hp. cbn [length] in Hlen.
  assert (∀ o1,
            parse_args rest o1 = inr o' →
            (Main.cid_type o' = Main.cid_type o1
             ∨ ∃ c, Main.cid_type o' = Some c ∧ c ∈ arg :: rest)
            ∧ (Main.device_name o' = Main.device_name o1
               ∨ ∃ d, Main.device_name o' = Some d ∧ d ∈ arg :: rest)
            ∧ (Main.max_contexts o' = Main.max_contexts o1
               ∨ ∃ a, a ∈ arg :: rest ∧ Main.max_contexts o' = atoi a)
            ∧ (Main.opt_verbose o' = Main.opt_verbose o1
               ∨ "--verbose" ∈ arg :: rest)) as Hrest.
  { intros o1 H1. destruct (IH rest o1 o' ltac:(lia) H1) as (Hc & Hd & Hm & Hv).
    split_and!.
    - destruct Hc as [?|(c & ? & ?)]; [by left|right].
      exists c. split; [done|by right].
    - destruct Hd as [?|(d & ? & ?)]; [by left|right].
      exists d. split; [done|by right].
    - destruct Hm as [?|(a & ? & ?)]; [by left|right].
      exists a. split; [by right|done].
    - destruct Hv as [?|?]; [by left|right; by right]. }
  destruct (String.eqb_spec arg "-v"); [done|].
  destruct (String.eqb_spec arg "-h"); [done|].
  destruct (String.eqb_spec arg "--verbose") as [->|].
  { destruct (Hrest _ Hp) as (Hc & Hd & Hm & Hv).
    split_and!; try done. right. by left. }
  destruct (String.eqb_spec arg "--max-contexts") as [->|].
  { destruct rest as [|value rest']; [done|].
    destruct (IH rest' _ o' ltac:(cbn in Hlen; lia) Hp)
      as (Hc & Hd & Hm & Hv).
    cbn [Main.cid_type Main.device_name Main.max_contexts Main.opt_verbose]
      in *.
    split_and!.
    - destruct Hc as [?|(c & ? & ?)]; [by left|right].
      exists c. split; [done|by do 2 right].
    - destruct Hd as [?|(d & ? & ?)]; [by left|right].
      exists d. split; [done|by do 2 right].
    - right. destruct Hm as [->|(a & ? & ?)].
      + exists value. split; [right; by left|done].
      + exists a. split; [by do 2 right|done].
    - destruct Hv as [?|?]; [by left|right; by do 2 right]. }
  case_bool_decide.
  { destruct (Hrest _ Hp) as (Hc & Hd & Hm & Hv).
    cbn [Main.cid_type Main.device_name Main.max_contexts Main.opt_verbose]
      in *.
    split_and!; try done.
    destruct Hc as [->|?]; [|by right]. right. exists arg. split; [done|by left]. }
  case_bool_decide; [|done].
  destruct (Hrest _ Hp) as (Hc & Hd & Hm & Hv).
  cbn [Main.cid_type Main.device_name Main.max_contexts Main.opt_verbose]
    in *.
  split_and!; try done.
  destruct Hd as [->|?]; [|by right]. right. exists arg. split; [done|by left].
Qed.

(** The loop over the arguments never leaves into [sniff]. *)
Lemma parse_args_no_sniff (n : nat) :
  ∀ (argv : list string) (o : Main.options) (r : Main.main_result),
    (length argv ≤ n)%nat → parse_args argv o = inl r →
    ∀ v l m d, r ≠ Main.MainSniff v l m d.
Proof.
  induction n as [|n IH]; intros argv o r Hlen Hp v l m d.
  { destruct argv; [done|cbn in Hlen; lia]. }
  destruct argv as [|arg rest]; [done|].
  cbn [Main.parse_args] in Hp. cbn [length] in Hlen.
  destruct (String.eqb arg "-v"); [by injection Hp as <-|].
  destruct (String.eqb arg "-h"); [by injection Hp as <-|].
  destruct (String.eqb arg "--verbose"); [by eapply IH; [|done]; lia|].
  destruct (String.eqb arg "--max-contexts").
  { destruct rest as [|value rest']; [by injection Hp as <-|].
    eapply IH; [|done]. cbn in Hlen. lia. }
  case_bool_decide; [by eapply IH; [|done]; lia|].
  case_bool_decide; [by eapply IH; [|done]; lia|].
  by injection Hp as <-.
Qed.

(** X16. When [main] goes on to call [sniff], the device is one of the
    arguments; the CID type is small with the argument smallcid, or
    large with the argument largecid; the maximum number of contexts is
    at least 1 and at most the greatest CID of that type plus one, and
    is the default, the greatest small CID plus one, or what [atoi]
    made of an argument; and the verbose mode is on only if --verbose is
    an argument. *)
Theorem main_sniff_config (argv : list string) (is_verbose : bool)
    (use_large_cid max_contexts : Z) (device_name : string) :
  main argv = Main.MainSniff is_verbose use_large_cid max_contexts device_name →
  device_name ∈ tail argv
  ∧ ((use_large_cid = 0 ∧ "smallcid" ∈ tail argv
      ∧ 1 ≤ max_contexts ≤ SMALL + 1)
     ∨ (use_large_cid = 1 ∧ "largecid" ∈ tail argv
        ∧ 1 ≤ max_contexts ≤ LARGE + 1))
  ∧ (max_contexts = SMALL + 1
     ∨ ∃ a, a ∈ tail argv ∧ max_contexts = atoi a)
  ∧ (is_verbose = true → "--verbose" ∈ tail argv).
Proof.
  unfold Main.main. destruct (_ <=? 1); [done|].
  destruct (parse_args (tail argv) _) as [r|o] eqn:Hp.
  { intros ->. by eapply parse_args_no_sniff in Hp. }
  apply (parse_args_options (length (tail argv))) in Hp
    as (Hc & Hd & Hm & Hv); [|done].
  cbn [Main.cid_type Main.device_name Main.max_contexts Main.opt_verbose]
    in *.
  unfold Main.check_options.
  destruct (Main.cid_type o) as [cid|] eqn:Hcid; [|done].
  destruct Hc as [[=]|(c & [= <-] & Hcin)].
  assert (∀ large max,
            (if (Main.max_contexts o <? 1) || (Main.max_contexts o >? max + 1)
             then Main.MainError Main.usage (Main.bad_max_contexts_text max)
             else match Main.device_name o with
                  | Some device =>
                      Main.MainSniff (Main.opt_verbose o) large
                        (Main.max_contexts o) device
                  | None => Main.MainError Main.usage ""
                  end)
            = Main.MainSniff is_verbose use_large_cid max_contexts device_name →
            use_large_cid = large ∧ 1 ≤ max_contexts ≤ max + 1
            ∧ device_name ∈ tail argv
            ∧ (max_contexts = SMALL + 1
               ∨ ∃ a, a ∈ tail argv ∧ max_contexts = atoi a)
            ∧ (is_verbose = true → "--verbose" ∈ tail argv)) as Hchecked.
  { intros large max.
    destruct (Z.ltb_spec (Main.max_contexts o) 1); [done|].
    destruct (Z.gtb_spec (Main.max_contexts o) (max + 1)); [done|].
    cbn [orb].
    destruct (Main.device_name o) as [dev|] eqn:Hdev; [|done].
    intros [= <- <- <- <-].
    destruct Hd as [[=]|(d & [= <-] & Hdin)].
    split_and!; try done; try lia.
    intros Ht. destruct Hv as [Hv|Hv]; [congruence|done]. }
  destruct (String.eqb_spec cid "smallcid") as [->|].
  { intros H. apply Hchecked in H as (-> & ? & ? & ? & ?).
    split_and!; try done. by left. }
  destruct (String.eqb_spec cid "largecid") as [->|]; [|done].
  intros H. apply Hchecked in H as (-> & ? & ? & ? & ?).
  split_and!; try done. by right.
Qed.

(** X17. With -h or -v as its first argument [main] prints the usage,
    or the version, and returns 1, whatever follows: it never goes on
    to [sniff]. *)
Theorem main_help_version_first (prog : string) (rest : list string) :
  main (prog :: "-h" :: rest) = Main.MainError Main.usage ""
  ∧ main (prog :: "-v" :: rest)
    = Main.MainError (Main.version_text version) ""
  ∧ ∀ sniff_ok : bool,
      Main.exit_code (main (prog :: "-h" :: rest)) sniff_ok = Some 1
      ∧ Main.exit_code (main (prog :: "-v" :: rest)) sniff_ok = Some 1.
Proof.
  assert (∀ a, (Z.of_nat (length (prog :: a :: rest)) <=? 1) = false) as Hl
    by (intros a; apply Z.leb_gt; cbn [length]; lia).
  unfold Main.main. rewrite !Hl. done.
Qed.

Lemma parse_args_verbose_only (n : nat) (o : Main.options) :
  Main.cid_type o = None →
  ∃ o', parse_args (replicate n "--verbose") o = inr o'
        ∧ Main.cid_type o' = None.
Proof.
  revert o. induction n as [|n IH]; intros o Ho; [by exists o|].
  cbn. apply IH. done.
Qed.

Lemma parse_args_value_missing (n : nat) (o : Main.options) :
  parse_args (replicate n "--verbose" ++ ["--max-contexts"]) o
  = inl Main.MainUndefined.
Proof. revert o. induction n as [|n IH]; intros o; [done|]. cbn. apply IH. Qed.

(** X18. Given one or more --verbose and nothing else, [main] hands a
    NULL CID type to [strcmp]; given any number of --verbose and then
    --max-contexts as its last argument, it hands a NULL string to
    [atoi]: both are undefined behaviour, not the usage. *)
Theorem main_undefined (prog : string) (n : nat) :
  main (prog :: replicate (S n) "--verbose") = Main.MainUndefined
  ∧ main (prog :: replicate n "--verbose" ++ ["--max-contexts"])
    = Main.MainUndefined.
Proof.
  split.
  - unfold Main.main.
    assert ((Z.of_nat (length (prog :: replicate (S n) "--verbose")) <=? 1)
            = false) as -> by (apply Z.leb_gt; cbn [length replicate]; lia).
    cbn [tail].
    destruct (parse_args_verbose_only (S n)
                {| Main.opt_verbose := false;
                   Main.max_contexts := SMALL + 1;
                   Main.cid_type := None; Main.device_name := None |}
                eq_refl) as (o' & -> & Hc).
    unfold Main.check_options. by rewrite Hc.
  - unfold Main.main.
    assert ((Z.of_nat (length (prog :: replicate n "--verbose"
                                 ++ ["--max-contexts"])) <=? 1)
            = false) as ->.
    { apply Z.leb_gt. cbn [length]. rewrite length_app. cbn. lia. }
    cbn [tail]. by rewrite parse_args_value_missing.
Qed.

End MainFacts.

Lemma main_sniff_config_witness :
  Main.main MainSamples.small_cid_max MainSamples.large_cid_max "1.6.1"
    MainSamples.atoi MainSamples.argv
  = Main.MainSniff true 0 4 "eth0"
  ∧ "eth0" ∈ tail MainSamples.argv
  ∧ "smallcid" ∈ tail MainSamples.argv.
Proof.
  assert (Main.main MainSamples.small_cid_max MainSamples.large_cid_max
            "1.6.1" MainSamples.atoi MainSamples.argv
          = Main.MainSniff true 0 4 "eth0") as Hmain by reflexivity.
  split; [exact Hmain|].
  destruct (main_sniff_config _ _ _ _ _ _ _ _ _ Hmain)
    as (Hdev & [(_ & Hcid & _)|(Hlarge & _)] & _);
    [by split|discriminate Hlarge].
Defined.
